(** * A shallow embedding of the coin collection manager (coinpresent/script.js)
    and of the AI orchestrator modules, with the properties of its storage,
    annotation, media and search code. *)

From Stdlib Require Import List String Ascii ZArith Bool Lia Permutation Sorted QArith Qround.
Import ListNotations.
Open Scope string_scope.
Open Scope Z_scope.

(** ** JavaScript values

    The values the program handles: JS numbers are modelled by integers (no NaN,
    Infinity or fractions appear in the properties below), strings by strings of
    8-bit code units, arrays by lists and plain objects by association lists whose
    order is the property order. Arrays and objects are handled as values: every
    object the claims are about is owned by exactly one parent (no aliasing). *)

#[local] Set Warnings "-register-all".

Inductive jv : Type :=
| JUndef
| JNull
| JBool (b : bool)
| JNum (n : Z)
| JStr (s : string)
| JArr (l : list jv)
| JObj (l : list (string * jv)).

(** Nested induction principle for [jv]. *)
Section jv_ind'.
Variable P : jv -> Prop.
Hypothesis HUndef : P JUndef.
Hypothesis HNull : P JNull.
Hypothesis HBool : forall b, P (JBool b).
Hypothesis HNum : forall n, P (JNum n).
Hypothesis HStr : forall s, P (JStr s).
Hypothesis HArr : forall l, Forall P l -> P (JArr l).
Hypothesis HObj : forall l, Forall (fun kv => P (snd kv)) l -> P (JObj l).

Fixpoint jv_ind' (v : jv) : P v :=
    match v with
    | JUndef => HUndef
    | JNull => HNull
    | JBool b => HBool b
    | JNum n => HNum n
    | JStr s => HStr s
    | JArr l => HArr l
        ((fix go (l : list jv) : Forall P l :=
            match l with
            | [] => Forall_nil _
            | x :: r => Forall_cons _ (jv_ind' x) (go r)
            end) l)
    | JObj l => HObj l
        ((fix go (l : list (string * jv)) : Forall (fun kv => P (snd kv)) l :=
            match l with
            | [] => Forall_nil _
            | kv :: r => Forall_cons _ (jv_ind' (snd kv)) (go r)
            end) l)
    end.
End jv_ind'.

(** Errors a JS operation can throw. *)
Inductive jserr : Type :=
| TypeError
| QuotaExceededError
| OtherDOMError
| Error (message : string).

Inductive res (A : Type) : Type :=
| Ok (a : A)
| Throw (e : jserr).
Arguments Ok {A} a.
Arguments Throw {A} e.

(** Truthiness (ToBoolean). *)
Definition truthy (v : jv) : bool :=
  match v with
  | JUndef | JNull => false
  | JBool b => b
  | JNum n => negb (n =? 0)
  | JStr s => negb (String.eqb s "")
  | JArr _ | JObj _ => true
  end.

(** [a || b] *)
Definition js_or (a b : jv) : jv := if truthy a then a else b.

(** Strict equality [===]. Distinct array or object values are never the same
    reference; every [===] of the program has a primitive on one side. *)
Definition strict_eq (a b : jv) : bool :=
  match a, b with
  | JUndef, JUndef | JNull, JNull => true
  | JBool x, JBool y => Bool.eqb x y
  | JNum x, JNum y => x =? y
  | JStr x, JStr y => String.eqb x y
  | _, _ => false
  end.

Fixpoint assoc_get (k : string) (l : list (string * jv)) : option jv :=
  match l with
  | [] => None
  | (k', v) :: r => if String.eqb k k' then Some v else assoc_get k r
  end.

(** Assignment [o[k] = v]: an existing key keeps its place, a new one goes last. *)
Fixpoint assoc_set (k : string) (v : jv) (l : list (string * jv)) : list (string * jv) :=
  match l with
  | [] => [(k, v)]
  | (k', v') :: r => if String.eqb k k' then (k', v) :: r else (k', v') :: assoc_set k v r
  end.

(** Property read [o.k] on the values the program reads from: objects look the
    key up, strings and arrays have a [length], other primitives have no own
    properties, and reading from [undefined] or [null] throws. *)
Definition js_get (o : jv) (k : string) : res jv :=
  match o with
  | JUndef | JNull => Throw TypeError
  | JObj l => Ok (match assoc_get k l with Some v => v | None => JUndef end)
  | JStr s => Ok (if String.eqb k "length" then JNum (Z.of_nat (String.length s)) else JUndef)
  | JArr l => Ok (if String.eqb k "length" then JNum (Z.of_nat (List.length l)) else JUndef)
  | _ => Ok JUndef
  end.

(** Property write [o.k = v] in strict (class) code: on an object it sets the
    key, on a primitive it throws. Named properties of arrays are not part of
    the list model, so writing one leaves the array as it is. *)
Definition js_set (o : jv) (k : string) (v : jv) : res jv :=
  match o with
  | JObj l => Ok (JObj (assoc_set k v l))
  | JArr l => Ok (JArr l)
  | _ => Throw TypeError
  end.

(** [o.k] for a known object. *)
Definition field (l : list (string * jv)) (k : string) : jv :=
  match assoc_get k l with Some v => v | None => JUndef end.

(** [v.length > n] *)
Definition length_gt (v : jv) (n : Z) : bool :=
  match v with
  | JStr s => n <? Z.of_nat (String.length s)
  | JArr l => n <? Z.of_nat (List.length l)
  | _ => false
  end.

(** *** Number and string conversion *)

Definition digit_char (d : Z) : ascii := ascii_of_nat (48 + Z.to_nat d).

Fixpoint digits_aux (fuel : nat) (z : Z) (acc : string) : string :=
  match fuel with
  | O => acc
  | S f =>
      let acc' := String (digit_char (z mod 10)) acc in
      if z <? 10 then acc' else digits_aux f (z / 10) acc'
  end.

(** Number::toString for integers. *)
Definition string_of_Z (z : Z) : string :=
  let a := Z.abs z in
  let s := digits_aux (S (Pos.size_nat (Z.to_pos a))) a "" in
  if z <? 0 then "-" ++ s else s.

(** ToString, as used by template literals. *)
Fixpoint to_string (v : jv) : string :=
  match v with
  | JUndef => "undefined"
  | JNull => "null"
  | JBool true => "true"
  | JBool false => "false"
  | JNum n => string_of_Z n
  | JStr s => s
  | JArr l =>
      (fix join (l : list jv) : string :=
         match l with
         | [] => ""
         | [x] => match x with JUndef | JNull => "" | _ => to_string x end
         | x :: r => (match x with JUndef | JNull => "" | _ => to_string x end) ++ "," ++ join r
         end) l
  | JObj _ => "[object Object]"
  end.

(** ** JSON.stringify and JSON.parse

    A JSON text is represented by the JSON value it denotes; its [.length] is the
    length of the text [JSON.stringify] prints for it ([json_print]). Parsing a
    text gives back that value, and [JSON.stringify] denotes the value with
    [undefined] members of objects dropped and [undefined] elements of arrays
    printed as [null]. *)

Definition dq : ascii := "034"%char.
Definition bs : ascii := "092"%char.

Definition hex_char (d : nat) : ascii :=
  if Nat.ltb d 10 then ascii_of_nat (48 + d) else ascii_of_nat (87 + d).

(** QuoteJSONString on one code unit. *)
Definition escape_char (c : ascii) : string :=
  let n := nat_of_ascii c in
  if Ascii.eqb c dq then String bs (String dq EmptyString)
  else if Ascii.eqb c bs then String bs (String bs EmptyString)
  else if Nat.eqb n 8 then String bs "b"
  else if Nat.eqb n 9 then String bs "t"
  else if Nat.eqb n 10 then String bs "n"
  else if Nat.eqb n 12 then String bs "f"
  else if Nat.eqb n 13 then String bs "r"
  else if Nat.ltb n 32 then
    String bs (String "u"%char (String "0"%char (String "0"%char
      (String (hex_char (n / 16)) (String (hex_char (n mod 16)) EmptyString)))))
  else String c EmptyString.

Fixpoint escape (s : string) : string :=
  match s with
  | EmptyString => EmptyString
  | String c r => escape_char c ++ escape r
  end.

Definition quote (s : string) : string := String dq (escape s ++ String dq EmptyString).

Fixpoint json_print (v : jv) : string :=
  match v with
  | JUndef => "undefined"
  | JNull => "null"
  | JBool true => "true"
  | JBool false => "false"
  | JNum n => string_of_Z n
  | JStr s => quote s
  | JArr l =>
      "[" ++ (fix elems (l : list jv) : string :=
                match l with
                | [] => ""
                | [x] => match x with JUndef => "null" | _ => json_print x end
                | x :: r => (match x with JUndef => "null" | _ => json_print x end) ++ "," ++ elems r
                end) l ++ "]"
  | JObj l =>
      "{" ++ (fix members (l : list (string * jv)) (first : bool) : string :=
                match l with
                | [] => ""
                | (k, JUndef) :: r => members r first
                | (k, x) :: r =>
                    (if first then "" else ",") ++ quote k ++ ":" ++ json_print x ++ members r false
                end) l true ++ "}"
  end.

(** The value a JSON text denotes: [JSON.parse (JSON.stringify v)]. *)
Fixpoint json_norm (v : jv) : jv :=
  match v with
  | JArr l => JArr (map (fun x => match x with JUndef => JNull | _ => json_norm x end) l)
  | JObj l =>
      JObj ((fix members (l : list (string * jv)) : list (string * jv) :=
               match l with
               | [] => []
               | (k, JUndef) :: r => members r
               | (k, x) :: r => (k, json_norm x) :: members r
               end) l)
  | other => other
  end.

Record json_text : Type := JText { text_value : jv }.

Definition JSON_stringify (v : jv) : json_text := JText (json_norm v).
Definition JSON_parse (t : json_text) : jv := text_value t.
Definition text_length (t : json_text) : Z := Z.of_nat (String.length (json_print (text_value t))).

(** ** The manager state and localStorage *)

(** The fields of [CoinCollectionManager] the claims read or write. *)
Record manager : Type := mkManager {
  coins : list jv;
  currentMode : string;
  nextCoinId : Z;
  nextAnnotationId : Z;
  quickAnnotationType : jv;
  (** The [Set] of expanded coin ids, in insertion order. *)
  expandedCoins : list jv
}.

(** [constructor()] before [init()]. *)
Definition manager0 : manager :=
  mkManager [] "annotate" 1 1000 JNull [].

(** localStorage: the key-value store of JSON texts the program writes. *)
Definition storage := list (string * json_text).

Fixpoint ls_get (k : string) (s : storage) : option json_text :=
  match s with
  | [] => None
  | (k', t) :: r => if String.eqb k k' then Some t else ls_get k r
  end.

Fixpoint ls_put (k : string) (t : json_text) (s : storage) : storage :=
  match s with
  | [] => [(k, t)]
  | (k', t') :: r => if String.eqb k k' then (k', t) :: r else (k', t') :: ls_put k t r
  end.

Record world : Type := mkWorld { mgr : manager; ls : storage }.

(** The program's effects: state passing over the world with JS exceptions. A
    thrown exception keeps the mutations made before it. *)
Definition M (A : Type) : Type := world -> world * res A.

Definition ret {A} (a : A) : M A := fun w => (w, Ok a).
Definition bind {A B} (c : M A) (k : A -> M B) : M B :=
  fun w => match c w with
           | (w', Ok a) => k a w'
           | (w', Throw e) => (w', Throw e)
           end.
Definition throw {A} (e : jserr) : M A := fun w => (w, Throw e).
Definition lift {A} (r : res A) : M A := fun w => (w, r).
Definition get_mgr : M manager := fun w => (w, Ok (mgr w)).
Definition put_mgr (m : manager) : M unit := fun w => (mkWorld m (ls w), Ok tt).

Notation "x <- c ;; k" := (bind c (fun x => k)) (at level 61, c at next level, right associativity).
Notation "c ;;; k" := (bind c (fun _ => k)) (at level 61, right associativity).

(** Monadic [res] helpers. *)
Definition rbind {A B} (r : res A) (k : A -> res B) : res B :=
  match r with Ok a => k a | Throw e => Throw e end.

Fixpoint filter_res {A} (p : A -> res bool) (l : list A) : res (list A) :=
  match l with
  | [] => Ok []
  | x :: r => rbind (p x) (fun b => rbind (filter_res p r) (fun r' => Ok (if b then x :: r' else r')))
  end.

(** [Array.prototype.find] returning the index of the found element. *)
Fixpoint find_res {A} (p : A -> res bool) (l : list A) (i : nat) : res (option (nat * A)) :=
  match l with
  | [] => Ok None
  | x :: r => rbind (p x) (fun b => if b then Ok (Some (i, x)) else find_res p r (S i))
  end.

Fixpoint replace_nth {A} (l : list A) (i : nat) (x : A) : list A :=
  match l, i with
  | [], _ => []
  | _ :: r, O => x :: r
  | y :: r, S j => y :: replace_nth r j x
  end.

Definition set_coins (m : manager) (cs : list jv) : manager :=
  mkManager cs (currentMode m) (nextCoinId m) (nextAnnotationId m) (quickAnnotationType m) (expandedCoins m).

Definition coin_at (i : nat) : M jv :=
  m <- get_mgr ;; ret (nth i (coins m) JUndef).

(** [this.coins[i] = c] as the in-place mutation of the i-th coin object. *)
Definition set_coin (i : nat) (c : jv) : M unit :=
  m <- get_mgr ;; put_mgr (set_coins m (replace_nth (coins m) i c)).

(** [this.coins.forEach((coin, i) => body i)] over the coins present at the call. *)
Fixpoint loop_from (i fuel : nat) (body : nat -> M unit) : M unit :=
  match fuel with
  | O => ret tt
  | S f => body i ;;; loop_from (S i) f body
  end.

Definition forEach_coin (body : nat -> M unit) : M unit :=
  m <- get_mgr ;; loop_from 0 (List.length (coins m)) body.

(** ** Coins and annotations *)

Definition marker (id x y : Z) (label color : string) : jv :=
  JObj [("id", JNum id); ("x", JNum x); ("y", JNum y); ("label", JStr label); ("color", JStr color)].

Definition blank (keys : list string) : jv := JObj (map (fun k => (k, JStr "")) keys).

Definition scenario (mn mx : Z) (d : string) : jv :=
  JObj [("min", JNum mn); ("max", JNum mx); ("description", JStr d)].

(** The coin literal built by [addCoin(isSample)]; [now] is
    [new Date().toISOString()]. *)
Definition new_coin (id : Z) (isSample : bool) (now : string) : jv :=
  JObj [
    ("id", JNum id);
    ("title", JStr (if isSample then "Sample Coin" else "Coin " ++ string_of_Z id));
    ("description", JStr (if isSample
        then "This is a sample coin to demonstrate the application features. Upload your own images and start documenting your collection."
        else "New coin added to collection. Add images and detailed information."));
    ("images", JObj [("obverse", JNull); ("reverse", JNull)]);
    ("media", JObj [("images", JArr []); ("videos", JArr [])]);
    ("annotations", JObj [
        ("obverse", JArr (if isSample
            then [marker 1001 150 100 "Portrait" "#f97316"; marker 1002 200 250 "Date Area" "#06b6d4"]
            else []));
        ("reverse", JArr (if isSample then [marker 1003 180 120 "Main Device" "#ef4444"] else []))]);
    ("metadata", blank ["country"; "year"; "denomination"; "metal"; "diameter"; "weight"; "mintmark"; "edge"; "mintage"]);
    ("condition", blank ["grade"; "notes"; "wear"; "luster"; "strike"]);
    ("valuation", JObj [
        ("scenarios", JObj [
            ("common", scenario 5 40 "Common circulated coin");
            ("silver", scenario 20 200 "Silver content value");
            ("collectible", scenario 200 5000 "Rare or high-grade collectible")]);
        ("currentEstimate", JStr "");
        ("marketNotes", JStr "")]);
    ("notes", JStr "");
    ("created", JStr now);
    ("modified", JStr now)].

(** [addCoin(isSample)]: [id: this.nextCoinId++] and [this.coins.push(coin)].
    Its trailing [renderCoins()] draws, its [saveToStorage()] is
    [saveToStorage] below (which touches only images), and the delayed expansion
    touches [expandedCoins] only. *)
Definition addCoin (isSample : bool) (now : string) : M unit :=
  m <- get_mgr ;;
  let id := nextCoinId m in
  put_mgr (mkManager (coins m ++ [new_coin id isSample now]) (currentMode m) (id + 1)
             (nextAnnotationId m) (quickAnnotationType m) (expandedCoins m)).

Definition colors : list jv :=
  map JStr ["#f97316"; "#06b6d4"; "#ef4444"; "#10b981"; "#8b5cf6"; "#f59e0b"].

(** [colors[n % colors.length]]; a non-number index reads [undefined]. *)
Definition color_for (len : jv) : jv :=
  match len with
  | JNum n => nth (Z.to_nat (n mod 6)) colors JUndef
  | _ => JUndef
  end.

Definition id_is (target : jv) (a : jv) : res bool :=
  rbind (js_get a "id") (fun v => Ok (strict_eq v target)).

(** [addAnnotation(coinId, side, x, y, label = null)]. *)
Definition addAnnotation (coinId : jv) (side : string) (x y label : jv) : M unit :=
  m <- get_mgr ;;
  if negb (String.eqb (currentMode m) "annotate") then ret tt else
  found <- lift (find_res (id_is coinId) (coins m) 0) ;;
  match found with
  | None => ret tt
  | Some (i, coin) =>
      let annotationLabel := js_or (js_or label (quickAnnotationType m)) (JStr "New annotation") in
      anns <- lift (js_get coin "annotations") ;;
      lst <- lift (js_get anns side) ;;
      len <- lift (js_get lst "length") ;;
      let color := color_for len in
      let id := nextAnnotationId m in
      put_mgr (mkManager (coins m) (currentMode m) (nextCoinId m) (id + 1)
                 (quickAnnotationType m) (expandedCoins m)) ;;;
      let annotation := JObj [("id", JNum id); ("x", x); ("y", y); ("label", annotationLabel); ("color", color)] in
      match lst with
      | JArr l =>
          anns' <- lift (js_set anns side (JArr (l ++ [annotation]))) ;;
          coin' <- lift (js_set coin "annotations" anns') ;;
          set_coin i coin' ;;;
          m' <- get_mgr ;;
          put_mgr (mkManager (coins m') (currentMode m') (nextCoinId m') (nextAnnotationId m')
                     JNull (expandedCoins m'))
      | _ => throw TypeError
      end
  end.

(** [Object.assign(annotation, updates)] for an object literal [updates]. *)
Fixpoint assign (target updates : list (string * jv)) : list (string * jv) :=
  match updates with
  | [] => target
  | (k, v) :: r => assign (assoc_set k v target) r
  end.

Definition sides : list string := ["obverse"; "reverse"].

(** One side of the body of [updateAnnotation]. *)
Definition update_side (annotationId : jv) (updates : list (string * jv)) (i : nat) (side : string) : M unit :=
  coin <- coin_at i ;;
  anns <- lift (js_get coin "annotations") ;;
  lst <- lift (js_get anns side) ;;
  match lst with
  | JArr l =>
      found <- lift (find_res (id_is annotationId) l 0) ;;
      match found with
      | Some (j, JObj al) =>
          anns' <- lift (js_set anns side (JArr (replace_nth l j (JObj (assign al updates))))) ;;
          coin' <- lift (js_set coin "annotations" anns') ;;
          set_coin i coin'
      | _ => ret tt
      end
  | _ => throw TypeError
  end.

Fixpoint forEach_side (sds : list string) (body : string -> M unit) : M unit :=
  match sds with
  | [] => ret tt
  | s :: r => body s ;;; forEach_side r body
  end.

(** [updateAnnotation(annotationId, updates)]. *)
Definition updateAnnotation (annotationId : jv) (updates : list (string * jv)) : M unit :=
  forEach_coin (fun i => forEach_side sides (update_side annotationId updates i)).

(** One side of the body of [removeAnnotation]. *)
Definition remove_side (annotationId : jv) (i : nat) (side : string) : M unit :=
  coin <- coin_at i ;;
  anns <- lift (js_get coin "annotations") ;;
  lst <- lift (js_get anns side) ;;
  match lst with
  | JArr l =>
      l' <- lift (filter_res (fun a => rbind (id_is annotationId a) (fun b => Ok (negb b))) l) ;;
      anns' <- lift (js_set anns side (JArr l')) ;;
      coin' <- lift (js_set coin "annotations" anns') ;;
      set_coin i coin'
  | _ => throw TypeError
  end.

(** [removeAnnotation(annotationId)]. *)
Definition removeAnnotation (annotationId : jv) : M unit :=
  forEach_coin (fun i => forEach_side sides (remove_side annotationId i)).

(** ** Persistence: [saveToStorage], [handleStorageQuotaExceeded], [loadFromStorage] *)

(** [try { c } catch (e) { h(e) }] *)
Definition try_catch {A} (c : M A) (h : jserr -> M A) : M A :=
  fun w => match c w with
           | (w', Ok a) => (w', Ok a)
           | (w', Throw e) => h e w'
           end.

(** Which branch of the save code ran, as told by its console message. *)
Inductive save_report : Type :=
| SavedDirect            (* 'Storage saved successfully' *)
| SavedAfterCompression  (* 'Storage saved after compression' *)
| RetryFailed            (* 'Storage still exceeded after compression.' and the alert *)
| NothingToCompress      (* 'No images to compress. Storage quota exceeded.' and the alert *)
| StorageError (e : jserr). (* 'Storage error: ...' *)

Section Persistence.

  (** The browser's localStorage: whether [setItem(key, text)] on the current
      store succeeds ([None]) or throws (a QuotaExceededError or another
      DOMException). *)
Variable setItem_fails : storage -> string -> json_text -> option jserr.

  (** [compressDataUrl(dataUrl)]: the JPEG data URL the canvas produces once the
      image has loaded (the source of the image is [ToString] of the value). *)
Variable compress : string -> string.

Definition setItem (k : string) (t : json_text) : M unit :=
    fun w => match setItem_fails (ls w) k t with
             | None => (mkWorld (mgr w) (ls_put k t (ls w)), Ok tt)
             | Some e => (w, Throw e)
             end.

Definition meta_of (m : manager) : jv :=
    JObj [("nextCoinId", JNum (nextCoinId m));
          ("nextAnnotationId", JNum (nextAnnotationId m));
          ("expandedCoins", JArr (expandedCoins m))].

  (** [(dataToSave.length + metaToSave.length) * 2] *)
Definition estimated_size (m : manager) : Z :=
    (text_length (JSON_stringify (JArr (coins m))) + text_length (JSON_stringify (meta_of m))) * 2.

Definition size_limit : Z := 4 * 1024 * 1024.

  (** [if (v && v.length > 100000) v = await this.compressDataUrl(v)] on a
      property [k] of the images object of coin [i]. *)
Definition compress_main (i : nat) (k : string) (applied : bool) : M bool :=
    coin <- coin_at i ;;
    imgs <- lift (js_get coin "images") ;;
    v <- lift (js_get imgs k) ;;
    if truthy v && length_gt v 100000 then
      imgs' <- lift (js_set imgs k (JStr (compress (to_string v)))) ;;
      coin' <- lift (js_set coin "images" imgs') ;;
      set_coin i coin' ;;;
      ret true
    else ret applied.

  (** One step of [for (const media of coin.media.images)]: element [j]. *)
Definition compress_media_item (i j : nat) (applied : bool) : M bool :=
    coin <- coin_at i ;;
    media <- lift (js_get coin "media") ;;
    mimgs <- lift (js_get media "images") ;;
    match mimgs with
    | JArr l =>
        let item := nth j l JUndef in
        data <- lift (js_get item "data") ;;
        if truthy data && length_gt data 100000 then
          item' <- lift (js_set item "data" (JStr (compress (to_string data)))) ;;
          media' <- lift (js_set media "images" (JArr (replace_nth l j item'))) ;;
          coin' <- lift (js_set coin "media" media') ;;
          set_coin i coin' ;;;
          ret true
        else ret applied
    | _ => ret applied
    end.

Fixpoint compress_media_from (i j fuel : nat) (applied : bool) : M bool :=
    match fuel with
    | O => ret applied
    | S f => a <- compress_media_item i j applied ;; compress_media_from i (S j) f a
    end.

  (** [if (coin.media && coin.media.images) { for (const media of coin.media.images) ... }]:
      an array is iterated element by element, a string by its characters (which
      have no [data]), anything else is not iterable. *)
Definition compress_media (i : nat) (applied : bool) : M bool :=
    coin <- coin_at i ;;
    media <- lift (js_get coin "media") ;;
    if negb (truthy media) then ret applied else
    mimgs <- lift (js_get media "images") ;;
    if negb (truthy mimgs) then ret applied else
    match mimgs with
    | JArr l => compress_media_from i 0 (List.length l) applied
    | JStr _ => ret applied
    | _ => throw TypeError
    end.

Definition compress_coin (i : nat) (applied : bool) : M bool :=
    a1 <- compress_main i "obverse" applied ;;
    a2 <- compress_main i "reverse" a1 ;;
    compress_media i a2.

Fixpoint compress_coins_from (i fuel : nat) (applied : bool) : M bool :=
    match fuel with
    | O => ret applied
    | S f => a <- compress_coin i applied ;; compress_coins_from (S i) f a
    end.

  (** [handleStorageQuotaExceeded()] *)
Definition handleStorageQuotaExceeded : M save_report :=
    m <- get_mgr ;;
    compressionApplied <- compress_coins_from 0 (List.length (coins m)) false ;;
    if compressionApplied then
      try_catch
        (m' <- get_mgr ;;
         setItem "coinCollection" (JSON_stringify (JArr (coins m'))) ;;;
         setItem "coinCollectionMeta" (JSON_stringify (meta_of m')) ;;;
         ret SavedAfterCompression)
        (fun _ => ret RetryFailed)
    else ret NothingToCompress.

  (** [saveToStorage()] *)
Definition saveToStorage : M save_report :=
    try_catch
      (m <- get_mgr ;;
       let dataToSave := JSON_stringify (JArr (coins m)) in
       let metaToSave := JSON_stringify (meta_of m) in
       if size_limit <? estimated_size m then handleStorageQuotaExceeded
       else
         setItem "coinCollection" dataToSave ;;;
         setItem "coinCollectionMeta" metaToSave ;;;
         ret SavedDirect)
      (fun e => match e with
                | QuotaExceededError => handleStorageQuotaExceeded
                | _ => ret (StorageError e)
                end).

End Persistence.

(** [new Set(iterable)] over the values of an array, in insertion order. *)
Fixpoint set_insert_all (acc l : list jv) : list jv :=
  match l with
  | [] => acc
  | x :: r => if existsb (strict_eq x) acc then set_insert_all acc r else set_insert_all (acc ++ [x]) r
  end.

(** [metaData.k || dflt] read into a numeric counter. *)
Definition restore_counter (md : jv) (k : string) (dflt : Z) : option Z :=
  match js_get md k with
  | Ok v => if truthy v then (match v with JNum n => Some n | _ => None end) else Some dflt
  | Throw _ => None
  end.

(** [new Set(metaData.expandedCoins || [])] *)
Definition restore_expanded (md : jv) : option (list jv) :=
  match js_get md "expandedCoins" with
  | Ok v => if truthy v then (match v with JArr l => Some (set_insert_all [] l) | _ => None end) else Some []
  | Throw _ => None
  end.

(** [loadFromStorage()]. [None] stands for stored texts of a shape the manager
    fields cannot hold (a non-array collection, a non-numeric counter), which
    [saveToStorage] never writes. *)
Definition loadFromStorage (w : world) : option manager :=
  let m := mgr w in
  let cs := match ls_get "coinCollection" (ls w) with
            | None => Some (coins m)
            | Some t => match JSON_parse t with JArr l => Some l | _ => None end
            end in
  match cs with
  | None => None
  | Some cs =>
      match ls_get "coinCollectionMeta" (ls w) with
      | None => Some (set_coins m cs)
      | Some t =>
          let md := JSON_parse t in
          match restore_counter md "nextCoinId" 1, restore_counter md "nextAnnotationId" 1000,
                restore_expanded md with
          | Some n, Some a, Some e =>
              Some (mkManager cs (currentMode m) n a (quickAnnotationType m) e)
          | _, _, _ => None
          end
      end
  end.

(** ** Media filtering and sorting *)

(** [String.prototype.includes(pat)] *)
Fixpoint string_includes (s pat : string) : bool :=
  String.prefix pat s || match s with
                         | EmptyString => false
                         | String _ r => string_includes r pat
                         end.

(** [media.tags && media.tags.includes('macro')]: arrays compare elements with
    SameValueZero, strings search a substring, any other truthy value has no
    [includes] method. *)
Definition macro_tagged (tags : jv) : res bool :=
  if negb (truthy tags) then Ok false else
  match tags with
  | JArr l => Ok (existsb (strict_eq (JStr "macro")) l)
  | JStr s => Ok (string_includes s "macro")
  | _ => Throw TypeError
  end.

(** The callback of [mediaList.filter] in [applyMediaFilter]. *)
Definition filter_callback (filter : string) (media : jv) : res bool :=
  if String.eqb filter "featured" then rbind (js_get media "isFeatured") (fun v => Ok (strict_eq v (JBool true)))
  else if String.eqb filter "ai" then rbind (js_get media "source") (fun v => Ok (strict_eq v (JStr "ai")))
  else if String.eqb filter "macro" then rbind (js_get media "tags") macro_tagged
  else if String.eqb filter "video" then rbind (js_get media "type") (fun v => Ok (strict_eq v (JStr "video")))
  else if String.eqb filter "annotated" then rbind (js_get media "allowAnnotations") (fun v => Ok (strict_eq v (JBool true)))
  else Ok true.

(** [applyMediaFilter(mediaList, filter)] *)
Definition applyMediaFilter (mediaList : list jv) (filter : string) : res (list jv) :=
  if String.eqb filter "all" then Ok mediaList
  else filter_res (filter_callback filter) mediaList.

(** [Array.prototype.sort(comparefn)]. The sort is stable (ES2019); for a
    consistent comparator its result is the unique stable sorted permutation,
    which this insertion sort computes: [x] goes before the first [y] with
    [comparefn(x, y) <= 0]. A comparator that throws makes the sort throw. *)
Fixpoint insert_res (cmp : jv -> jv -> res Z) (x : jv) (l : list jv) : res (list jv) :=
  match l with
  | [] => Ok [x]
  | y :: r => rbind (cmp x y) (fun c =>
                if c <=? 0 then Ok (x :: y :: r)
                else rbind (insert_res cmp x r) (fun r' => Ok (y :: r')))
  end.

Fixpoint sort_res (cmp : jv -> jv -> res Z) (l : list jv) : res (list jv) :=
  match l with
  | [] => Ok []
  | x :: r => rbind (sort_res cmp r) (insert_res cmp x)
  end.

(** The same sort for a comparator that does not throw. *)
Fixpoint insert_by (f : jv -> jv -> Z) (x : jv) (l : list jv) : list jv :=
  match l with
  | [] => [x]
  | y :: r => if f x y <=? 0 then x :: y :: r else y :: insert_by f x r
  end.

Fixpoint sort_by (f : jv -> jv -> Z) (l : list jv) : list jv :=
  match l with
  | [] => []
  | x :: r => insert_by f x (sort_by f r)
  end.

(** [String.prototype.toLowerCase] on 8-bit code units. *)
Definition lower_char (c : ascii) : ascii :=
  let n := nat_of_ascii c in
  if (Nat.leb 65 n && Nat.leb n 90) || (Nat.leb 192 n && Nat.leb n 222 && negb (Nat.eqb n 215))
  then ascii_of_nat (n + 32) else c.

Fixpoint toLowerCase (s : string) : string :=
  match s with
  | EmptyString => EmptyString
  | String c r => String (lower_char c) (toLowerCase r)
  end.

(** Arrays by address: [heap !! p] is the array at address [p]. *)
Definition heap := list (list jv).

Section MediaSort.

  (** [new Date(v)] for a truthy [uploadDate] [v]: its time value, [None] for NaN. *)
Variable new_Date : jv -> option Z.
  (** [String.prototype.localeCompare] of the host's locale. *)
Variable localeCompare : string -> string -> Z.

Definition cmp_curated (a b : jv) : res Z :=
    rbind (js_get a "isCurated") (fun ca =>
    rbind (js_get b "isCurated") (fun cb =>
      if truthy ca && negb (truthy cb) then Ok (-1)
      else if negb (truthy ca) && truthy cb then Ok 1
      else Ok 0)).

  (** [a.uploadDate ? new Date(a.uploadDate) : new Date(0)] *)
Definition date_of (u : jv) : option Z := if truthy u then new_Date u else Some 0.

  (** [dateB - dateA]; a NaN result counts as [+0] in SortCompare. *)
Definition cmp_chronological (a b : jv) : res Z :=
    rbind (js_get a "uploadDate") (fun ua =>
    rbind (js_get b "uploadDate") (fun ub =>
      Ok (match date_of ua, date_of ub with
          | Some da, Some db => db - da
          | _, _ => 0
          end))).

  (** [(a.title || '').toLowerCase()] *)
Definition title_key (a : jv) : res string :=
    rbind (js_get a "title") (fun t =>
      match js_or t (JStr "") with
      | JStr s => Ok (toLowerCase s)
      | _ => Throw TypeError
      end).

Definition cmp_title (a b : jv) : res Z :=
    rbind (title_key a) (fun ta => rbind (title_key b) (fun tb => Ok (localeCompare ta tb))).

  (** [(a.type || '').localeCompare(b.type || '')]: the receiver must be a
      string, the argument is converted with ToString. *)
Definition cmp_type (a b : jv) : res Z :=
    rbind (js_get a "type") (fun ta =>
    rbind (js_get b "type") (fun tb =>
      match js_or ta (JStr "") with
      | JStr s => Ok (localeCompare s (to_string (js_or tb (JStr ""))))
      | _ => Throw TypeError
      end)).

  (** [applyMediaSort(mediaList)] with [this.mediaSortMode]: [[...mediaList]]
      allocates a fresh array at address [length h], which is sorted in place
      and returned. *)
Definition applyMediaSort (mediaSortMode : string) (h : heap) (p : nat) : res (heap * nat) :=
    match nth_error h p with
    | None => Throw TypeError
    | Some mediaList =>
        let q := List.length h in
        let sort_copy cmp := rbind (sort_res cmp mediaList) (fun l' => Ok ((h ++ [l'])%list, q)) in
        if String.eqb mediaSortMode "curated" then sort_copy cmp_curated
        else if String.eqb mediaSortMode "chronological" then sort_copy cmp_chronological
        else if String.eqb mediaSortMode "title" then sort_copy cmp_title
        else if String.eqb mediaSortMode "type" then sort_copy cmp_type
        else Ok ((h ++ [mediaList])%list, q)
    end.

End MediaSort.

(** ** AI orchestration (ai-orchestrator.js, ai/proxyModel.js, ai/publicModel.js) *)

(** An [analyze(files, options)] function: the value its promise resolves to,
    or the error it throws or rejects with. *)
Definition analyzer := jv -> jv -> res jv.

(** The module-level [aiServices] object: each slot is [null] until its
    initializer resolves. *)
Record aiServices : Type := mkServices {
  offline : option analyzer;
  proxy : option analyzer;
  public : option analyzer
}.

Definition not_ready_error : jserr := Error "AI services are not ready yet.".

(** [analyzeCoinImages(files, options)]: proxy and public are awaited inside a
    [try] whose [catch] only warns; offline's promise is returned as it is. *)
Definition analyzeCoinImages (s : aiServices) (files options : jv) : res jv :=
  match match proxy s with
        | Some a => match a files options with Ok r => Some r | Throw _ => None end
        | None => None
        end with
  | Some r => Ok r
  | None =>
      match match public s with
            | Some a => match a files options with Ok r => Some r | Throw _ => None end
            | None => None
            end with
      | Some r => Ok r
      | None =>
          match offline s with
          | Some a => a files options
          | None => Throw not_ready_error
          end
      end
  end.

Definition failure (message : string) : jv :=
  JObj [("success", JBool false); ("message", JStr message)].

(** The [analyze] of the client [initializeProxyModel()] resolves to. *)
Definition proxy_analyze : analyzer := fun _ _ => Ok (failure "Proxy AI analysis not available").

(** The [analyze] of the client [initializePublicModel()] resolves to. *)
Definition public_analyze : analyzer := fun _ _ => Ok (failure "Public AI analysis not available").

(** ** The mocked market search ([simulateWebSearch]) *)

(** [Math.round] *)
Definition js_round (x : Q) : Z := Qfloor (Qplus x (1 # 2)).

Definition hex_upper (d : nat) : ascii :=
  if Nat.ltb d 10 then ascii_of_nat (48 + d) else ascii_of_nat (55 + d).

Definition pct (b : nat) : string :=
  String "%"%char (String (hex_upper (b / 16)) (String (hex_upper (b mod 16)) EmptyString)).

(** [encodeURIComponent] on 8-bit code units: unreserved characters are kept,
    the others are percent-encoded as UTF-8. *)
Definition uri_char (c : ascii) : string :=
  let n := nat_of_ascii c in
  if (Nat.leb 65 n && Nat.leb n 90) || (Nat.leb 97 n && Nat.leb n 122) || (Nat.leb 48 n && Nat.leb n 57)
     || existsb (Nat.eqb n) [45; 95; 46; 33; 126; 42; 39; 40; 41]%nat
  then String c EmptyString
  else if Nat.ltb n 128 then pct n
  else pct (192 + n / 64) ++ pct (128 + n mod 64).

Fixpoint encodeURIComponent (s : string) : string :=
  match s with
  | EmptyString => EmptyString
  | String c r => uri_char c ++ encodeURIComponent r
  end.

Definition search_result (title price condition source url image description soldDate : string) : jv :=
  JObj [("title", JStr title); ("price", JStr price); ("condition", JStr condition);
        ("source", JStr source); ("url", JStr url); ("image", JStr image);
        ("description", JStr description); ("soldDate", JStr soldDate)].

Section Search.

  (** [parseFloat]: [None] is NaN. *)
Variable parseFloat : string -> option Q.

  (** [`$${Math.round(basePrice * (lo + Math.random() * span))}`] *)
Definition price (basePrice lo span r : Q) : string :=
    "$" ++ string_of_Z (js_round (Qmult basePrice (Qplus lo (Qmult r span)))).

  (** [simulateWebSearch(query, coin)]; [rnd i] is the value of the [i]-th call
      of [Math.random()] in this call. The [year] constant is computed from
      [parseInt] and never used. *)
Definition simulateWebSearch (query : string) (coin : jv) (rnd : nat -> Q) : res (list jv) :=
    rbind (js_get coin "valuation") (fun valuation =>
    rbind (js_get valuation "currentEstimate") (fun est =>
    rbind (js_get coin "metadata") (fun metadata =>
    rbind (js_get metadata "year") (fun year =>
    rbind (js_get metadata "country") (fun country0 =>
    rbind (js_get metadata "denomination") (fun denom0 =>
    let basePrice := match parseFloat (to_string est) with
                     | Some x => if Qeq_bool x 0 then inject_Z 100 else x
                     | None => inject_Z 100
                     end in
    let country := to_string (js_or country0 (JStr "United States")) in
    let y := to_string year in
    let d := to_string denom0 in
    let q := encodeURIComponent query in
    Ok [
      search_result (y ++ " " ++ country ++ " " ++ d ++ " - Heritage Auctions")
        (price basePrice (8 # 10) (4 # 10) (rnd 0%nat)) "MS-65" "Heritage Auctions"
        ("https://coins.ha.com/search?q=" ++ q)
        "https://via.placeholder.com/120x120/8B4513/FFFFFF?text=Coin"
        ("Certified " ++ d ++ " in excellent condition. Well-struck example with original luster.")
        "2024-01-15";
      search_result (y ++ " " ++ d ++ " PCGS Graded - eBay")
        (price basePrice (6 # 10) (8 # 10) (rnd 1%nat)) "AU-58" "eBay"
        ("https://www.ebay.com/sch/i.html?_nkw=" ++ q)
        "https://via.placeholder.com/120x120/DAA520/FFFFFF?text=eBay"
        "PCGS certified coin with minimal wear. Popular collector item."
        "2024-02-03";
      search_result (country ++ " " ++ d ++ " Price Guide - PCGS")
        (price basePrice (9 # 10) (2 # 10) (rnd 2%nat) ++ " - " ++ price basePrice (11 # 10) (3 # 10) (rnd 3%nat))
        "Various" "PCGS Price Guide"
        "https://www.pcgs.com/prices"
        "https://via.placeholder.com/120x120/228B22/FFFFFF?text=PCGS"
        ("Current market values for " ++ d ++ " coins in various grades.")
        "Current";
      search_result (y ++ " " ++ d ++ " - Stack's Bowers")
        (price basePrice (11 # 10) (4 # 10) (rnd 4%nat)) "MS-64" "Stack's Bowers"
        ("https://www.stacksbowers.com/search?q=" ++ q)
        "https://via.placeholder.com/120x120/A0522D/FFFFFF?text=SB"
        "Professional numismatic auction house. Includes full provenance and detailed imagery."
        "2024-01-28";
      search_result (y ++ " " ++ d ++ " NGC Certified")
        (price basePrice (9 # 10) (3 # 10) (rnd 5%nat)) "MS-63" "NGC Registry"
        "https://www.ngccoin.com/price-guide/"
        "https://via.placeholder.com/120x120/CD853F/FFFFFF?text=NGC"
        "NGC certified example with detailed population reports and market analysis."
        "2024-02-10";
      search_result (y ++ " " ++ d ++ " Auction Record")
        (price basePrice (12 # 10) (5 # 10) (rnd 6%nat)) "MS-66" "Coin World"
        ("https://www.coinworld.com/search?q=" ++ q)
        "https://via.placeholder.com/120x120/5D2F0A/FFFFFF?text=CW"
        "Recent auction record for premium grade example. Market trending upward."
        "2024-01-20";
      search_result (country ++ " " ++ d ++ " Collector Forum")
        (price basePrice (7 # 10) (6 # 10) (rnd 7%nat)) "VF-30" "CoinTalk Forum"
        ("https://www.cointalk.com/search/?q=" ++ q)
        "https://via.placeholder.com/120x120/654321/FFFFFF?text=CT"
        "Community discussion and recent sales data from collector forums."
        "2024-02-05";
      search_result (y ++ " " ++ d ++ " Variety Guide")
        (price basePrice (5 # 10) (10 # 10) (rnd 8%nat)) "Various" "CONECA"
        "https://www.conecaonline.org/"
        "https://via.placeholder.com/120x120/8B7355/FFFFFF?text=VAR"
        "Variety and error coin information with pricing for different die states."
        "Reference"
    ])))))).

End Search.

Definition search_sources : list string :=
  ["Heritage Auctions"; "eBay"; "PCGS Price Guide"; "Stack's Bowers"; "NGC Registry";
   "Coin World"; "CoinTalk Forum"; "CONECA"].

(** ** Further operations used by the scenarios below *)

(** The body of [reader.onload] in [handleMediaUpload(coinId, fileInput)] for one
    file, after [if (!coin.media) coin.media = { images: [], videos: [] }]:
    [mediaId] is the generated id, [title] the file name without its extension,
    [dataUrl] the [FileReader] result and [now] the upload time. *)
Definition media_item (mediaId mediaType dataUrl title now : string) : jv :=
  JObj [("id", JStr mediaId); ("type", JStr mediaType); ("url", JStr dataUrl);
        ("title", JStr title); ("description", JStr ""); ("uploadDate", JStr now)].

Definition handleMediaUpload_onload (coinId : jv) (mediaId mediaType dataUrl title now : string) : M unit :=
  m <- get_mgr ;;
  found <- lift (find_res (id_is coinId) (coins m) 0) ;;
  match found with
  | None => ret tt
  | Some (i, coin) =>
      media0 <- lift (js_get coin "media") ;;
      coin1 <- (if truthy media0 then ret coin
                else lift (js_set coin "media" (JObj [("images", JArr []); ("videos", JArr [])]))) ;;
      media <- lift (js_get coin1 "media") ;;
      let key := if String.eqb mediaType "video" then "videos" else "images" in
      lst <- lift (js_get media key) ;;
      match lst with
      | JArr l =>
          media' <- lift (js_set media key (JArr (l ++ [media_item mediaId mediaType dataUrl title now]))) ;;
          coin' <- lift (js_set coin1 "media" media') ;;
          set_coin i coin'
      | _ => throw TypeError
      end
  end.

(** [init()] on a world: [loadFromStorage()], then [addCoin(true)] when no coin
    was loaded ([None] as for [loadFromStorage]). *)
Definition init (now : string) (w : world) : option world :=
  match loadFromStorage w with
  | None => None
  | Some m =>
      let w1 := mkWorld m (ls w) in
      Some (match coins m with [] => fst (addCoin true now w1) | _ => w1 end)
  end.

(** The ids of all annotations of all coins, side by side. *)
Definition annotation_ids (m : manager) : list jv :=
  flat_map (fun c =>
    match js_get c "annotations" with
    | Ok anns =>
        flat_map (fun side =>
          match js_get anns side with
          | Ok (JArr l) => map (fun a => match js_get a "id" with Ok v => v | Throw _ => JUndef end) l
          | _ => []
          end) sides
    | Throw _ => []
    end) (coins m).

Fixpoint repeat_char (n : nat) (c : ascii) : string :=
  match n with
  | O => EmptyString
  | S k => String c (repeat_char k c)
  end.

(** The callback of [compressImage(...).then(...)] in [handleImageUpload]: the
    compressed data URL becomes the coin's main image on [side]. *)
Definition handleImageUpload_then (coinId : jv) (side compressedDataUrl : string) : M unit :=
  m <- get_mgr ;;
  found <- lift (find_res (id_is coinId) (coins m) 0) ;;
  match found with
  | None => ret tt
  | Some (i, coin) =>
      imgs <- lift (js_get coin "images") ;;
      imgs' <- lift (js_set imgs side (JStr compressedDataUrl)) ;;
      coin1 <- lift (js_set coin "images" imgs') ;;
      ai <- lift (js_get coin1 "aiAnalysis") ;;
      coin2 <- (if truthy ai then ret coin1
                else lift (js_set coin1 "aiAnalysis" (JObj [("obverse", JNull); ("reverse", JNull)]))) ;;
      set_coin i coin2
  end.

(** *** Concrete scenarios *)

Definition empty_world : world := mkWorld manager0 [].
Definition t_start : string := "2024-05-01T10:00:00.000Z".
Definition t_upload : string := "2024-05-01T10:05:00.000Z".

(** The first start of the application with an empty localStorage. *)
Definition started_world : world :=
  match init t_start empty_world with Some w => w | None => empty_world end.

(** A PNG data URL of 100,022 characters. *)
Definition long_data_url : string := "data:image/png;base64," ++ repeat_char 100000 "A".

(** A browser whose localStorage quota is used up: every write throws. *)
Definition quota_full : storage -> string -> json_text -> option jserr :=
  fun _ _ _ => Some QuotaExceededError.

Definition jpeg_stub : string -> string := fun _ => "data:image/jpeg;base64,/9j/4AAQ".

(** The sample coin with the long data URL uploaded as an extra media image. *)
Definition world_media_image : world :=
  fst (handleMediaUpload_onload (JNum 1) "media_1714557900000_k3j9x2a1b" "image" long_data_url "closeup" t_upload started_world).

(** The sample coin with the long data URL as its main obverse image. *)
Definition world_main_image : world :=
  fst (handleImageUpload_then (JNum 1) "obverse" long_data_url started_world).

(** Two clicks on the obverse image of the sample coin in annotate mode. *)
Definition world_two_clicks : world :=
  fst ((addAnnotation (JNum 1) "obverse" (JNum 40) (JNum 60) JNull ;;;
        addAnnotation (JNum 1) "obverse" (JNum 80) (JNum 90) JNull) started_world).

(* ================================================================== *)
(** * Observations used by the properties *)

(** An [analyze] slot gives no result: not initialized, or its call throws. *)
Definition service_yields_nothing (a : option analyzer) (files options : jv) : Prop :=
  match a with
  | None => True
  | Some f => exists e, f files options = Throw e
  end.

(** A field of a search result. *)
Definition result_source (r : jv) : jv :=
  match r with JObj l => field l "source" | _ => JUndef end.

Definition result_field (k : string) (r : jv) : jv :=
  match r with JObj l => field l k | _ => JUndef end.

(** [v == null] *)
Definition nullish (v : jv) : bool :=
  match v with JUndef | JNull => true | _ => false end.

(** [m[k]] for a value whose property read does not throw. *)
Definition prop (m : jv) (k : string) : jv :=
  match js_get m k with Ok v => v | Throw _ => JUndef end.

(** 'tags include macro': an array with the element 'macro', or a string with
    the substring 'macro'. *)
Definition tags_include_macro (tags : jv) : bool :=
  match tags with
  | JArr l => existsb (strict_eq (JStr "macro")) l
  | JStr s => string_includes s "macro"
  | _ => false
  end.

(** A [tags] value with an [includes] method, or a falsy one. *)
Definition tags_searchable (tags : jv) : bool :=
  negb (truthy tags) || match tags with JArr _ | JStr _ => true | _ => false end.

Definition is_curated (m : jv) : bool := truthy (prop m "isCurated").

(** The upload time, the epoch for a missing date. *)
Definition upload_time (new_Date : jv -> option Z) (m : jv) : Z :=
  match date_of new_Date (prop m "uploadDate") with Some d => d | None => 0 end.

Definition title_lower (m : jv) : string :=
  match js_or (prop m "title") (JStr "") with JStr s => toLowerCase s | _ => "" end.

Definition title_ok (m : jv) : bool :=
  match js_or (prop m "title") (JStr "") with JStr _ => true | _ => false end.

Definition type_str (m : jv) : string :=
  match js_or (prop m "type") (JStr "") with JStr s => s | _ => "" end.

Definition type_ok (m : jv) : bool :=
  match js_or (prop m "type") (JStr "") with JStr _ => true | _ => false end.

(** The comparators of [applyMediaSort] on items whose reads do not throw. *)
Definition curated_f (a b : jv) : Z :=
  if is_curated a && negb (is_curated b) then -1
  else if negb (is_curated a) && is_curated b then 1 else 0.

Definition chrono_f (new_Date : jv -> option Z) (a b : jv) : Z :=
  upload_time new_Date b - upload_time new_Date a.

Definition title_f (localeCompare : string -> string -> Z) (a b : jv) : Z :=
  localeCompare (title_lower a) (title_lower b).

Definition type_f (localeCompare : string -> string -> Z) (a b : jv) : Z :=
  localeCompare (type_str a) (type_str b).

(** Three media items. *)
Definition media_a : jv :=
  JObj [("id", JNum 1); ("type", JStr "image"); ("tags", JArr [JStr "macro"]); ("isFeatured", JBool true)].

Definition media_b : jv :=
  JObj [("id", JNum 2); ("type", JStr "video"); ("tags", JArr []); ("source", JStr "ai")].

Definition media_c : jv :=
  JObj [("id", JNum 3); ("type", JStr "image"); ("isCurated", JBool true)].

(** A stored image data URL the compression step looks at: truthy and longer
    than 100,000 characters. *)
Definition long_url (v : jv) : bool := truthy v && length_gt v 100000.

(** A coin with a long main image ([images.obverse], [images.reverse]) or a
    media item with a long [data] field. *)
Definition coin_long_images (c : jv) : bool :=
  long_url (prop (prop c "images") "obverse") || long_url (prop (prop c "images") "reverse") ||
  match prop (prop c "media") "images" with
  | JArr l => existsb (fun it => long_url (prop it "data")) l
  | _ => false
  end.

(** A computation that leaves the world as it is and either returns [a] or throws. *)
Definition quiet {A} (c : M A) (w : world) (a : A) : Prop :=
  c w = (w, Ok a) \/ exists e, c w = (w, Throw e).

(** [s] doubled [k] times. *)
Fixpoint dbl (k : nat) (s : string) : string :=
  match k with
  | O => s
  | S k' => dbl k' (s ++ s)
  end.

(** A coin with 2^21 characters of notes and no image, already saved once
    when it had none. *)
Definition big_coin : jv := JObj [("id", JNum 1); ("notes", JStr (dbl 21 "A"))].

Definition world_big : world :=
  mkWorld (set_coins manager0 [big_coin])
          [("coinCollection", JSON_stringify (JArr [])); ("coinCollectionMeta", JSON_stringify (meta_of manager0))].

(** A value JSON represents exactly: no [undefined] anywhere in it. *)
Fixpoint clean (v : jv) : bool :=
  match v with
  | JUndef => false
  | JArr l => (fix go (l : list jv) : bool :=
                 match l with [] => true | x :: r => clean x && go r end) l
  | JObj l => (fix go (l : list (string * jv)) : bool :=
                 match l with [] => true | (_, x) :: r => clean x && go r end) l
  | _ => true
  end.

(** No two elements are [===]: the values of a [Set]. *)
Fixpoint nodup_strict (l : list jv) : bool :=
  match l with
  | [] => true
  | x :: r => negb (existsb (strict_eq x) r) && nodup_strict r
  end.

(** The manager states the program builds: coins without [undefined], the
    expanded ids of a [Set], counters that are not [0]. *)
Definition mgr_saveable (m : manager) : bool :=
  forallb clean (coins m) && forallb clean (expandedCoins m) && nodup_strict (expandedCoins m)
  && negb (nextCoinId m =? 0) && negb (nextAnnotationId m =? 0).

(** The saved fields of [m] agree with [m0] and its coins have no [undefined]. *)
Definition saved_fields_kept (m0 m : manager) : Prop :=
  forallb clean (coins m) = true /\ nextCoinId m = nextCoinId m0 /\
  nextAnnotationId m = nextAnnotationId m0 /\ expandedCoins m = expandedCoins m0.

(** A computation that keeps [P] of the world, whether it returns or throws. *)
Definition keeps {A} (P : world -> Prop) (c : M A) : Prop :=
  forall w, P w -> P (fst (c w)).

(** The last two writes to localStorage stored the collection and the metadata
    of the current manager state. *)
Definition written (w : world) : Prop :=
  exists s, ls w = ls_put "coinCollectionMeta" (JSON_stringify (meta_of (mgr w)))
                         (ls_put "coinCollection" (JSON_stringify (JArr (coins (mgr w)))) s).

(** The keys of an annotation marker. *)
Definition marker_keys : list string := ["id"; "x"; "y"; "label"; "color"].

(** A marker: an object with exactly the keys id, x, y, label, color. *)
Definition marker_shaped (a : jv) : bool :=
  match a with
  | JObj l => if list_eq_dec string_dec (map fst l) marker_keys then true else false
  | _ => false
  end.

(** A coin whose annotations object has exactly the keys obverse and reverse,
    each an array of markers. *)
Definition two_sided (c : jv) : bool :=
  match prop c "annotations" with
  | JObj [(k1, JArr o); (k2, JArr r)] =>
      String.eqb k1 "obverse" && String.eqb k2 "reverse" &&
      forallb marker_shaped o && forallb marker_shaped r
  | _ => false
  end.

(** A coin with its annotations left out. *)
Definition strip_annotations (c : jv) : jv :=
  match c with
  | JObj l => JObj (assoc_set "annotations" JNull l)
  | _ => c
  end.

(** An [updates] object whose keys are marker keys, as the program's calls
    [{ label, color }] and [{ x, y }]. *)
Definition marker_updates (updates : list (string * jv)) : bool :=
  forallb (fun kv => existsb (String.eqb (fst kv)) marker_keys) updates.

(** ** More of the manager: coin edits, expansion, media edits and export

    As for [addCoin] and the annotation operations, each method below is its
    change to the manager state; the [renderCoins()] it calls draws and the
    [saveToStorage()] it calls is [saveToStorage] above. *)

(** [this.coins.find(c => c.id === coinId)] followed by [if (!coin) return]:
    the index and the coin found, when it is truthy. *)
Definition find_coin (coinId : jv) (cs : list jv) : res (option (nat * jv)) :=
  rbind (find_res (id_is coinId) cs 0)
        (fun o => Ok (match o with
                      | Some (i, c) => if truthy c then Some (i, c) else None
                      | None => None
                      end)).

(** [setMode(mode)]: the button and cursor updates are drawing. *)
Definition setMode (mode : string) : M unit :=
  m <- get_mgr ;;
  put_mgr (mkManager (coins m) mode (nextCoinId m) (nextAnnotationId m) (quickAnnotationType m) (expandedCoins m)).

(** [setQuickAnnotationType(type)]. *)
Definition setQuickAnnotationType (type : jv) : M unit :=
  m <- get_mgr ;;
  put_mgr (mkManager (coins m) (currentMode m) (nextCoinId m) (nextAnnotationId m) type (expandedCoins m)) ;;;
  setMode "annotate".

(** The global [handleImageClick(event, coinId, side)]; [x] and [y] are the
    click position relative to the image. [addAnnotation(coinId, side, x, y)]
    takes the default [label = null]. *)
Definition handleImageClick (coinId : jv) (side : string) (x y : jv) : M unit :=
  m <- get_mgr ;;
  if String.eqb (currentMode m) "annotate" then addAnnotation coinId side x y JNull else ret tt.

(** [deleteCoin(coinId)]; [confirmed] is the answer to its [confirm] dialog. *)
Definition deleteCoin (confirmed : bool) (coinId : jv) : M unit :=
  if negb confirmed then ret tt else
  m <- get_mgr ;;
  cs <- lift (filter_res (fun c => rbind (id_is coinId c) (fun b => Ok (negb b))) (coins m)) ;;
  put_mgr (set_coins m cs).

Fixpoint index_keys (i : nat) (l : list jv) : list (string * jv) :=
  match l with
  | [] => []
  | x :: r => (string_of_Z (Z.of_nat i), x) :: index_keys (S i) r
  end.

(** The own enumerable properties [{...v}] copies: an object's members, an
    array's elements and a string's characters under their indices; other
    values have none. *)
Definition own_props (v : jv) : list (string * jv) :=
  match v with
  | JObj l => l
  | JArr l => index_keys 0 l
  | JStr s => index_keys 0 (map (fun c => JStr (String c EmptyString)) (list_ascii_of_string s))
  | _ => []
  end.

(** [updateCoin(coinId, updates)]: the coin is replaced by
    [{ ...coin, ...updates, modified: now }], [now] being
    [new Date().toISOString()]. *)
Definition updateCoin (coinId updates : jv) (now : string) : M unit :=
  m <- get_mgr ;;
  found <- lift (find_res (id_is coinId) (coins m) 0) ;;
  match found with
  | None => ret tt
  | Some (i, c) =>
      set_coin i (JObj (assign (assign (assign [] (own_props c)) (own_props updates)) [("modified", JStr now)]))
  end.

(** The global [updateCoinField(coinId, field, value)]. *)
Definition updateCoinField (coinId : jv) (field : string) (value : jv) (now : string) : M unit :=
  updateCoin coinId (JObj [(field, value)]) now.

(** Assignment [o[k] = v] in the global (sloppy) functions: on an object it sets
    the key, on [undefined] or [null] it throws, on another primitive it does
    nothing. Named properties of arrays are not part of the list model. *)
Definition js_set_sloppy (o : jv) (k : string) (v : jv) : res jv :=
  match o with
  | JObj l => Ok (JObj (assoc_set k v l))
  | JUndef | JNull => Throw TypeError
  | other => Ok other
  end.

(** [coin[section][field] = value] on the coin found by id, as the global
    [updateCoinMetadata], [updateCoinCondition] and [updateCoinValuation] do;
    the section object is mutated in place. *)
Definition update_coin_section (section : string) (coinId : jv) (field : string) (value : jv) : M unit :=
  m <- get_mgr ;;
  found <- lift (find_coin coinId (coins m)) ;;
  match found with
  | None => ret tt
  | Some (i, coin) =>
      sec <- lift (js_get coin section) ;;
      sec' <- lift (js_set_sloppy sec field value) ;;
      coin' <- lift (js_set coin section sec') ;;
      set_coin i coin'
  end.

Definition updateCoinMetadata := update_coin_section "metadata".
Definition updateCoinCondition := update_coin_section "condition".
Definition updateCoinValuation := update_coin_section "valuation".




(** [v.filter(m => m.id !== mediaId)]: only arrays have [filter]. *)
Definition filter_out_id (mediaId v : jv) : res jv :=
  match v with
  | JArr l => rbind (filter_res (fun x => rbind (id_is mediaId x) (fun b => Ok (negb b))) l) (fun l' => Ok (JArr l'))
  | _ => Throw TypeError
  end.
Arguments filter_out_id : simpl never.

(** [removeMedia(coinId, mediaId)]: [coin.media.images] is replaced first, then
    [coin.media.videos]. *)
Definition removeMedia (coinId mediaId : jv) : M unit :=
  m <- get_mgr ;;
  found <- lift (find_coin coinId (coins m)) ;;
  match found with
  | None => ret tt
  | Some (i, coin) =>
      media <- lift (js_get coin "media") ;;
      if negb (truthy media) then ret tt else
      imgs <- lift (js_get media "images") ;;
      imgs' <- lift (filter_out_id mediaId imgs) ;;
      media1 <- lift (js_set media "images" imgs') ;;
      coin1 <- lift (js_set coin "media" media1) ;;
      set_coin i coin1 ;;;
      vids <- lift (js_get media1 "videos") ;;
      vids' <- lift (filter_out_id mediaId vids) ;;
      media2 <- lift (js_set media1 "videos" vids') ;;
      coin2 <- lift (js_set coin1 "media" media2) ;;
      set_coin i coin2
  end.

(** [[...v]] for the values the program spreads: an array's elements and a
    string's characters; spreading another value throws. *)
Definition iter_spread (v : jv) : res (list jv) :=
  match v with
  | JArr l => Ok l
  | JStr s => Ok (map (fun c => JStr (String c EmptyString)) (list_ascii_of_string s))
  | _ => Throw TypeError
  end.

(** [updateMediaTitle] ([key] = title) and [updateMediaDescription]
    ([key] = description): [allMedia = [...coin.media.images,
    ...coin.media.videos]] holds the item objects themselves, so
    [media[key] = value] on the found item changes it in [coin.media.images]
    (index [j]) or in [coin.media.videos] (index [j - images.length]). An item
    that can be written is an object, hence an element of an array, so the
    [ret tt] branches of the write-back are never taken. *)
Definition update_media_field (key : string) (coinId mediaId value : jv) : M unit :=
  m <- get_mgr ;;
  found <- lift (find_coin coinId (coins m)) ;;
  match found with
  | None => ret tt
  | Some (i, coin) =>
      media <- lift (js_get coin "media") ;;
      if negb (truthy media) then ret tt else
      imgs <- lift (js_get media "images") ;;
      li <- lift (iter_spread imgs) ;;
      vids <- lift (js_get media "videos") ;;
      lv <- lift (iter_spread vids) ;;
      hit <- lift (find_res (id_is mediaId) (li ++ lv) 0) ;;
      match hit with
      | None => ret tt
      | Some (j, item) =>
          if negb (truthy item) then ret tt else
          item' <- lift (js_set item key value) ;;
          if Nat.ltb j (List.length li) then
            match imgs with
            | JArr l =>
                media' <- lift (js_set media "images" (JArr (replace_nth l j item'))) ;;
                coin' <- lift (js_set coin "media" media') ;;
                set_coin i coin'
            | _ => ret tt
            end
          else
            match vids with
            | JArr l =>
                media' <- lift (js_set media "videos" (JArr (replace_nth l (j - List.length li) item'))) ;;
                coin' <- lift (js_set coin "media" media') ;;
                set_coin i coin'
            | _ => ret tt
            end
      end
  end.

Definition updateMediaTitle := update_media_field "title".
Definition updateMediaDescription := update_media_field "description".

(** [deleteImage(coinId, side)]; [confirmed] is the answer to its [confirm]
    dialog. The trailing [logToConsole] writes the console log only. *)
Definition deleteImage (confirmed : bool) (coinId : jv) (side : string) : M unit :=
  if negb confirmed then ret tt else
  m <- get_mgr ;;
  found <- lift (find_coin coinId (coins m)) ;;
  match found with
  | None => ret tt
  | Some (i, coin) =>
      imgs <- lift (js_get coin "images") ;;
      imgs' <- lift (js_set imgs side JNull) ;;
      coin1 <- lift (js_set coin "images" imgs') ;;
      set_coin i coin1 ;;;
      ai <- lift (js_get coin1 "aiAnalysis") ;;
      if negb (truthy ai) then ret tt else
      v <- lift (js_get ai side) ;;
      if negb (truthy v) then ret tt else
      ai' <- lift (js_set ai side JNull) ;;
      coin2 <- lift (js_set coin1 "aiAnalysis" ai') ;;
      set_coin i coin2
  end.

(** [Array.prototype.map] with a callback that may throw. *)
Fixpoint map_res {A B} (f : A -> res B) (l : list A) : res (list B) :=
  match l with
  | [] => Ok []
  | x :: r => rbind (f x) (fun y => rbind (map_res f r) (fun r' => Ok (y :: r')))
  end.

Fixpoint read_fields (o : jv) (ks : list string) : res (list (string * jv)) :=
  match ks with
  | [] => Ok []
  | k :: r => rbind (js_get o k) (fun v => rbind (read_fields o r) (fun rest => Ok ((k, v) :: rest)))
  end.

Definition export_base_keys : list string :=
  ["id"; "title"; "description"; "metadata"; "condition"; "created"; "modified"].

(** [if (b) exportCoin.k = coin.k;] *)
Definition opt_field (b : bool) (coin : jv) (k : string) (l : list (string * jv)) : res (list (string * jv)) :=
  if b then rbind (js_get coin k) (fun v => Ok (assoc_set k v l)) else Ok l.

(** The record [exportCollection] builds from one coin, under the four
    checkboxes of the export dialog. *)
Definition export_coin (includeImages includeAnnotations includeValuations includeNotes : bool) (coin : jv) : res jv :=
  rbind (read_fields coin export_base_keys) (fun l0 =>
  rbind (opt_field includeImages coin "images" l0) (fun l1 =>
  rbind (opt_field includeAnnotations coin "annotations" l1) (fun l2 =>
  rbind (opt_field includeValuations coin "valuation" l2) (fun l3 =>
  rbind (opt_field includeNotes coin "notes" l3) (fun l4 =>
  Ok (JObj l4)))))).

(** [exportCollection()]: the data it passes to [performExport]. *)
Definition exportCollection (includeImages includeAnnotations includeValuations includeNotes : bool) (m : manager) : res (list jv) :=
  map_res (export_coin includeImages includeAnnotations includeValuations includeNotes) (coins m).

Definition nl : ascii := "010"%char.

Fixpoint join (sep : string) (l : list string) : string :=
  match l with
  | [] => ""
  | [x] => x
  | x :: r => x ++ sep ++ join sep r
  end.

(** [s.replace(/\n/g, ' ')] *)
Fixpoint replace_newlines (s : string) : string :=
  match s with
  | EmptyString => EmptyString
  | String c r => String (if Ascii.eqb c nl then " "%char else c) (replace_newlines r)
  end.

(** [v?.k] *)
Definition opt_get (v : jv) (k : string) : res jv :=
  match v with
  | JUndef | JNull => Ok JUndef
  | _ => js_get v k
  end.

(** [v?.replace(/\n/g, ' ')]: of the values the program stores, only strings
    have a [replace] method. *)
Definition opt_replace_newlines (v : jv) : res jv :=
  match v with
  | JUndef | JNull => Ok JUndef
  | JStr s => Ok (JStr (replace_newlines s))
  | _ => Throw TypeError
  end.

Definition csv_headers : list string :=
  ["ID"; "Title"; "Country"; "Year"; "Denomination"; "Metal"; "Grade"; "Estimate"; "Notes"].

(** The row [convertToCSV] builds from one record. *)
Definition csv_row (coin : jv) : res (list jv) :=
  rbind (js_get coin "id") (fun id =>
  rbind (js_get coin "title") (fun title =>
  rbind (rbind (js_get coin "metadata") (fun md => js_get md "country")) (fun country =>
  rbind (rbind (js_get coin "metadata") (fun md => js_get md "year")) (fun year =>
  rbind (rbind (js_get coin "metadata") (fun md => js_get md "denomination")) (fun denomination =>
  rbind (rbind (js_get coin "metadata") (fun md => js_get md "metal")) (fun metal =>
  rbind (rbind (js_get coin "condition") (fun cd => js_get cd "grade")) (fun grade =>
  rbind (rbind (js_get coin "valuation") (fun v => opt_get v "currentEstimate")) (fun estimate =>
  rbind (rbind (js_get coin "notes") opt_replace_newlines) (fun notes =>
  Ok [id; title; country; year; denomination; metal; grade;
      js_or estimate (JStr ""); js_or notes (JStr "")]))))))))).

(** [`"${cell}"`] *)
Definition csv_cell (cell : jv) : string := String dq (to_string cell ++ String dq EmptyString).

Definition csv_line (row : list jv) : string := join "," (map csv_cell row).

(** [convertToCSV(data)]. *)
Definition convertToCSV (data : list jv) : res string :=
  rbind (map_res csv_row data) (fun rows =>
  Ok (join (String nl EmptyString) (map csv_line (map JStr csv_headers :: rows)))).

(** The number of line feeds in a string. *)
Fixpoint count_nl (s : string) : nat :=
  match s with
  | EmptyString => O
  | String c r => (if Ascii.eqb c nl then 1 else 0) + count_nl r
  end.

(** The marker [addAnnotation] appends. *)
Definition new_marker (m : manager) (x y label : jv) (len : nat) : jv :=
  JObj [("id", JNum (nextAnnotationId m)); ("x", x); ("y", y);
        ("label", js_or (js_or label (quickAnnotationType m)) (JStr "New annotation"));
        ("color", nth (Nat.modulo len 6) colors JUndef)].

(** An object without a repeated key. *)
Fixpoint keys_distinct (l : list (string * jv)) : bool :=
  match l with
  | [] => true
  | (k, _) :: r => negb (existsb (fun kv => String.eqb k (fst kv)) r) && keys_distinct r
  end.


(** The keys of a record [exportCollection] builds, in their order. *)
Definition export_keys (includeImages includeAnnotations includeValuations includeNotes : bool) : list string :=
  export_base_keys ++ (if includeImages then ["images"] else []) ++ (if includeAnnotations then ["annotations"] else [])
  ++ (if includeValuations then ["valuation"] else []) ++ (if includeNotes then ["notes"] else []).

(** The items of [l] whose [id] is not [mediaId]: the [filter] of
    [removeMedia] and [removeAnnotation] on items that are objects. *)
Definition keep_other_ids (mediaId : jv) (l : list jv) : list jv :=
  filter (fun x => negb (strict_eq (prop x "id") mediaId)) l.

(** A coin as [removeAnnotation(annotationId)] leaves it when its annotations
    object holds two arrays of markers: each side keeps the markers of
    another id. *)
Definition remove_from_coin (annotationId c : jv) : jv :=
  match c with
  | JObj cl =>
      match assoc_get "annotations" cl with
      | Some (JObj [(k1, JArr o); (k2, JArr r)]) =>
          JObj (assoc_set "annotations"
                  (JObj [(k1, JArr (keep_other_ids annotationId o)); (k2, JArr (keep_other_ids annotationId r))]) cl)
      | _ => c
      end
  | _ => c
  end.

(** ** The comparison panel

    [comparisonMode] and [comparisonSlots] are fields of the manager that no
    other method reads; they are kept apart from [manager]. A slot holds a coin
    found in [this.coins], or null. The [innerHTML] and class updates are
    drawing; they come after each slot write, so a throw while drawing leaves
    the write in place. *)
Record comparison := mkComparison { comparisonMode : bool; comparisonSlots : jv * jv }.

Definition comparison0 : comparison := mkComparison false (JNull, JNull).

(** [toggleComparisonView()] *)
Definition toggleComparisonView (c : comparison) : comparison :=
  let mode := negb (comparisonMode c) in
  mkComparison mode (if mode then comparisonSlots c else (JNull, JNull)).

(** [addToComparison(coinId)]: the slots it leaves. *)
Definition addToComparison (coinId : jv) (cs : list jv) (c : comparison) : res comparison :=
  rbind (find_coin coinId cs) (fun found =>
  Ok (match found with
      | None => c
      | Some (_, coin) =>
          let '(s0, s1) := comparisonSlots c in
          mkComparison (comparisonMode c)
            (if negb (truthy s0) then (coin, s1)
             else if negb (truthy s1) then (s0, coin)
             else (coin, s1))
      end)).

(** [removeFromComparison(coinId)] *)
Definition removeFromComparison (coinId : jv) (c : comparison) : res comparison :=
  let '(s0, s1) := comparisonSlots c in
  let second :=
    if truthy s1 then
      rbind (js_get s1 "id") (fun v =>
        Ok (if strict_eq v coinId then mkComparison (comparisonMode c) (s0, JNull) else c))
    else Ok c in
  if truthy s0 then
    rbind (js_get s0 "id") (fun v =>
      if strict_eq v coinId then Ok (mkComparison (comparisonMode c) (JNull, s1)) else second)
  else second.

(** [clearComparison()] *)
Definition clearComparison (c : comparison) : comparison := mkComparison (comparisonMode c) (JNull, JNull).

(** * Properties *)

(** *** Generic facts about the sort *)

Lemma insert_by_perm f x l : Permutation (insert_by f x l) (x :: l).
Proof.
  induction l as [|y r IH]; simpl; [auto|].
  destruct (f x y <=? 0); [auto|].
  eapply perm_trans; [apply perm_skip, IH|apply perm_swap].
Qed.

Lemma sort_by_perm f l : Permutation (sort_by f l) l.
Proof.
  induction l as [|x r IH]; simpl; [auto|].
  eapply perm_trans; [apply insert_by_perm|auto].
Qed.

Section SortBy.
Variable f : jv -> jv -> Z.
Hypothesis f_antisym : forall a b, 0 < f a b -> f b a <= 0.

Let R a b := f a b <= 0.

Lemma insert_by_sorted x l : Sorted R l -> Sorted R (insert_by f x l).
  Proof.
    induction 1 as [|y r Hs IH Hhd]; simpl; [auto|].
    destruct (f x y <=? 0) eqn:E.
    - apply Z.leb_le in E. constructor; [constructor; auto|constructor; exact E].
    - apply Z.leb_gt in E. constructor; [exact IH|].
      destruct r as [|z r']; simpl.
      + constructor. unfold R. apply f_antisym; exact E.
      + destruct (f x z <=? 0).
        * constructor. unfold R. apply f_antisym; exact E.
        * inversion Hhd; subst. constructor. assumption.
  Qed.

Lemma sort_by_sorted l : Sorted R (sort_by f l).
  Proof. induction l; simpl; [constructor|apply insert_by_sorted; auto]. Qed.
End SortBy.

(** A comparator that does not throw on the items of a list sorts it like its
    pure counterpart. *)
Lemma insert_res_pure cmp f x l :
  (forall y, In y l -> cmp x y = Ok (f x y)) ->
  insert_res cmp x l = Ok (insert_by f x l).
Proof.
  induction l as [|y r IH]; intros H; simpl; [reflexivity|].
  rewrite (H y (or_introl eq_refl)); simpl.
  destruct (f x y <=? 0); [reflexivity|].
  rewrite IH; [reflexivity|]. intros z Hz; apply H; right; exact Hz.
Qed.

Lemma sort_res_pure cmp f l :
  (forall x y, In x l -> In y l -> cmp x y = Ok (f x y)) ->
  sort_res cmp l = Ok (sort_by f l).
Proof.
  induction l as [|x r IH]; intros H; simpl; [reflexivity|].
  rewrite IH; [simpl|intros a b Ha Hb; apply H; right; assumption].
  apply insert_res_pure. intros y Hy. apply H; [left; reflexivity|].
  right. apply (Permutation_in _ (sort_by_perm f r)). exact Hy.
Qed.

(** *** Compression retry: media images are missed *)

(** C1: on a quota failure, [handleStorageQuotaExceeded] compresses a main image
    data URL longer than 100,000 characters and retries the write, but a media
    image uploaded with [handleMediaUpload], whose data URL is stored under
    [url], is never compressed (the loop reads [media.data]): the save gives up
    without compressing anything and without a retry. *)
Theorem saveToStorage_media_url_not_compressed :
  (100000 < N.of_nat (String.length long_data_url))%N /\
  saveToStorage quota_full jpeg_stub world_media_image = (world_media_image, Ok NothingToCompress) /\
  snd (saveToStorage quota_full jpeg_stub world_main_image) = Ok RetryFailed /\
  rbind (js_get (nth 0 (coins (mgr (fst (saveToStorage quota_full jpeg_stub world_main_image)))) JUndef) "images")
        (fun imgs => js_get imgs "obverse") = Ok (JStr (jpeg_stub long_data_url)).
Proof.
  split; [vm_compute; reflexivity|].
  split; [vm_cast_no_check (@eq_refl _ (world_media_image, Ok NothingToCompress))|].
  split; vm_compute; reflexivity.
Qed.

(** *** Annotation ids *)

(** C5: after the first start (sample coin with markers 1001, 1002, 1003 and
    [nextAnnotationId] still 1000), two clicks mint ids 1000 and 1001, so two
    markers share the id 1001, and [removeAnnotation(1001)] removes both. *)
Theorem sample_coin_annotation_ids_collide :
  annotation_ids (mgr started_world) = [JNum 1001; JNum 1002; JNum 1003] /\
  nextAnnotationId (mgr started_world) = 1000 /\
  annotation_ids (mgr world_two_clicks) = [JNum 1001; JNum 1002; JNum 1000; JNum 1001; JNum 1003] /\
  annotation_ids (mgr (fst (removeAnnotation (JNum 1001) world_two_clicks))) = [JNum 1002; JNum 1000; JNum 1003].
Proof. vm_compute. repeat split. Qed.

(** *** AI orchestration *)

(** C8 (as stated): a proxy service that is initialized but whose [analyze]
    throws, with the other two services not initialized, makes
    [analyzeCoinImages] throw 'AI services are not ready yet.'. *)
Lemma analyzeCoinImages_not_ready_with_proxy :
  let s := mkServices None (Some (fun _ _ => Throw (Error "proxy unreachable"))) None in
  proxy s <> None /\ analyzeCoinImages s JUndef JNull = Throw not_ready_error.
Proof. simpl. split; [discriminate|reflexivity]. Qed.

(** C8 (amended): the proxy's result is returned when its [analyze] does not
    throw; otherwise the public one's; when neither yields a result the outcome
    is the offline service's, and with no offline service the error 'AI services
    are not ready yet.'. With the repository's proxy and public stubs and an
    offline [analyze] that does not throw, that error is thrown exactly when no
    service is initialized. *)
Theorem analyzeCoinImages_fallback (s : aiServices) (files options : jv) :
  (forall a r, proxy s = Some a -> a files options = Ok r ->
     analyzeCoinImages s files options = Ok r) /\
  (forall b r, service_yields_nothing (proxy s) files options ->
     public s = Some b -> b files options = Ok r ->
     analyzeCoinImages s files options = Ok r) /\
  (service_yields_nothing (proxy s) files options ->
   service_yields_nothing (public s) files options ->
     analyzeCoinImages s files options =
       match offline s with Some c => c files options | None => Throw not_ready_error end) /\
  (offline s = None ->
     (analyzeCoinImages s files options = Throw not_ready_error <->
      service_yields_nothing (proxy s) files options /\ service_yields_nothing (public s) files options)) /\
  ((proxy s = None \/ proxy s = Some proxy_analyze) ->
   (public s = None \/ public s = Some public_analyze) ->
   (forall c e, offline s = Some c -> c files options <> Throw e) ->
     (analyzeCoinImages s files options = Throw not_ready_error <->
      proxy s = None /\ public s = None /\ offline s = None)).
Proof.
  destruct s as [off px pb]; unfold analyzeCoinImages, service_yields_nothing; simpl.
  split; [|split; [|split; [|split]]].
  - intros a r -> Ha. rewrite Ha. reflexivity.
  - intros b r Hp -> Hb. rewrite Hb.
    destruct px as [a|]; [destruct Hp as [e He]; rewrite He|]; reflexivity.
  - intros Hp Hb.
    destruct px as [a|]; [destruct Hp as [e He]; rewrite He|];
    (destruct pb as [b|]; [destruct Hb as [e' He']; rewrite He'|]); reflexivity.
  - intros ->. split.
    + intros Hnr.
      destruct px as [a|]; [destruct (a files options) eqn:Ea; [discriminate|]|];
      (destruct pb as [b|]; [destruct (b files options) eqn:Eb; [discriminate|]|]);
      split; eauto.
    + intros [Hp Hb].
      destruct px as [a|]; [destruct Hp as [e He]; rewrite He|];
      (destruct pb as [b|]; [destruct Hb as [e' He']; rewrite He'|]); reflexivity.
  - intros Hp Hb Hoff. split.
    + intros Hnr.
      destruct Hp as [->| ->]; [|discriminate].
      destruct Hb as [->| ->]; [|discriminate].
      destruct off as [c|]; [exfalso; exact (Hoff c not_ready_error eq_refl Hnr)|].
      auto.
    + intros [-> [-> ->]]. reflexivity.
Qed.

Lemma analyzeCoinImages_fallback_witness :
  analyzeCoinImages (mkServices None (Some proxy_analyze) None) JUndef JNull
    = Ok (failure "Proxy AI analysis not available") /\
  (analyzeCoinImages (mkServices None None None) JUndef JNull = Throw not_ready_error <->
   service_yields_nothing None JUndef JNull /\ service_yields_nothing None JUndef JNull).
Proof.
  split.
  - apply (proj1 (analyzeCoinImages_fallback (mkServices None (Some proxy_analyze) None) JUndef JNull)
             proxy_analyze _ eq_refl). reflexivity.
  - apply (proj1 (proj2 (proj2 (proj2 (analyzeCoinImages_fallback (mkServices None None None) JUndef JNull))))).
    reflexivity.
Defined.

(** C9: the proxy and public stubs resolve, for every input, to a failure with
    their fixed messages. *)
Theorem proxy_public_stubs_fail (files options : jv) :
  proxy_analyze files options = Ok (failure "Proxy AI analysis not available") /\
  public_analyze files options = Ok (failure "Public AI analysis not available").
Proof. split; reflexivity. Qed.

(** *** Mocked market search *)

(** C10 (as stated): the results are not determined by the coin alone: with the
    same coin (the sample coin, whose empty estimate parses to NaN) two calls
    differ in their prices when [Math.random()] differs, and in their URLs when
    the query differs. *)
Lemma simulateWebSearch_depends_on_random_and_query :
  let coin := nth 0 (coins (mgr started_world)) JUndef in
  let pf := fun _ : string => @None Q in
  rbind (simulateWebSearch pf "1999 dime" coin (fun _ => 0%Q)) (fun r => Ok (map (result_field "price") r))
  <> rbind (simulateWebSearch pf "1999 dime" coin (fun _ => (1 # 2)%Q)) (fun r => Ok (map (result_field "price") r)) /\
  rbind (simulateWebSearch pf "1999 dime" coin (fun _ => 0%Q)) (fun r => Ok (map (result_field "url") r))
  <> rbind (simulateWebSearch pf "dime" coin (fun _ => 0%Q)) (fun r => Ok (map (result_field "url") r)).
Proof. vm_compute. split; discriminate. Qed.

(** C10 (amended): whenever [simulateWebSearch] returns, it returns exactly 8
    results whose sources are the fixed sequence; it returns for every coin
    whose [valuation] and [metadata] are objects. *)
Theorem simulateWebSearch_eight_fixed_sources (parseFloat : string -> option Q) (query : string)
    (coin : jv) (rnd : nat -> Q) :
  (forall r, simulateWebSearch parseFloat query coin rnd = Ok r ->
     List.length r = 8%nat /\ map result_source r = map JStr search_sources) /\
  (forall cl vl ml, coin = JObj cl -> field cl "valuation" = JObj vl -> field cl "metadata" = JObj ml ->
     exists r, simulateWebSearch parseFloat query coin rnd = Ok r).
Proof.
  split.
  - intros r H. unfold simulateWebSearch in H.
    destruct (js_get coin "valuation") as [v|]; [|discriminate]; simpl in H.
    destruct (js_get v "currentEstimate") as [est|]; [|discriminate]; simpl in H.
    destruct (js_get coin "metadata") as [md|]; [|discriminate]; simpl in H.
    destruct (js_get md "year") as [y|]; [|discriminate]; simpl in H.
    destruct (js_get md "country") as [c|]; [|discriminate]; simpl in H.
    destruct (js_get md "denomination") as [d|]; [|discriminate]; simpl in H.
    injection H as <-. split; reflexivity.
  - intros cl vl ml -> Hv Hm. unfold simulateWebSearch. simpl.
    unfold field in Hv, Hm.
    destruct (assoc_get "valuation" cl); [subst|discriminate]. simpl.
    destruct (assoc_get "metadata" cl); [subst|discriminate]. simpl.
    eexists; reflexivity.
Qed.

Lemma simulateWebSearch_eight_fixed_sources_witness :
  exists r, simulateWebSearch (fun _ => None) "1999 dime" (nth 0 (coins (mgr started_world)) JUndef) (fun _ => 0%Q) = Ok r /\
            List.length r = 8%nat.
Proof.
  destruct (proj2 (simulateWebSearch_eight_fixed_sources (fun _ => None) "1999 dime"
                     (nth 0 (coins (mgr started_world)) JUndef) (fun _ => 0%Q))
              _ _ _ eq_refl eq_refl eq_refl) as [r Hr].
  exists r. split; [exact Hr|].
  exact (proj1 (proj1 (simulateWebSearch_eight_fixed_sources _ _ _ _) r Hr)).
Defined.

(** *** Media filter *)

Lemma filter_res_pure {A} (p : A -> res bool) (q : A -> bool) (l : list A) :
  (forall x, In x l -> p x = Ok (q x)) -> filter_res p l = Ok (filter q l).
Proof.
  induction l as [|x r IH]; intros H; simpl; [reflexivity|].
  rewrite (H x (or_introl eq_refl)); simpl.
  rewrite IH; [|intros y Hy; apply H; right; exact Hy].
  simpl. destruct (q x); reflexivity.
Qed.

Lemma js_get_prop (m : jv) (k : string) : nullish m = false -> js_get m k = Ok (prop m k).
Proof. destruct m; try discriminate; reflexivity. Qed.

Lemma macro_tagged_spec (t : jv) :
  tags_searchable t = true -> macro_tagged t = Ok (tags_include_macro t).
Proof.
  unfold tags_searchable, macro_tagged. intros H.
  destruct t as [| |b|n|s|l|o]; simpl in *; try reflexivity.
  - destruct b; [discriminate|reflexivity].
  - destruct (n =? 0); [reflexivity|discriminate].
  - destruct (String.eqb s "") eqn:E; simpl; [|reflexivity].
    apply String.eqb_eq in E. subst. reflexivity.
  - discriminate.
Qed.

Ltac filter_case Hn :=
  unfold applyMediaFilter; simpl; apply filter_res_pure; intros x Hx;
  unfold filter_callback; simpl;
  rewrite (js_get_prop x _ (proj1 (Bool.negb_true_iff _) (Hn x Hx))); reflexivity.

(** C6: [applyMediaFilter] with 'all' returns the list itself; with each other
    recognized filter it returns the items satisfying the filter's predicate in
    their original order, for items that are not [null]/[undefined] and, for
    'macro', whose [tags] are an array, a string or falsy. *)
Theorem applyMediaFilter_spec (l : list jv) :
  applyMediaFilter l "all" = Ok l /\
  (forallb (fun m => negb (nullish m)) l = true ->
   applyMediaFilter l "featured" = Ok (filter (fun m => strict_eq (prop m "isFeatured") (JBool true)) l) /\
   applyMediaFilter l "ai" = Ok (filter (fun m => strict_eq (prop m "source") (JStr "ai")) l) /\
   (forallb (fun m => tags_searchable (prop m "tags")) l = true ->
    applyMediaFilter l "macro" = Ok (filter (fun m => tags_include_macro (prop m "tags")) l)) /\
   applyMediaFilter l "video" = Ok (filter (fun m => strict_eq (prop m "type") (JStr "video")) l) /\
   applyMediaFilter l "annotated" = Ok (filter (fun m => strict_eq (prop m "allowAnnotations") (JBool true)) l)).
Proof.
  split; [reflexivity|].
  intros Hn. rewrite forallb_forall in Hn.
  split; [filter_case Hn|]. split; [filter_case Hn|].
  split; [|split; filter_case Hn].
  intros Ht. rewrite forallb_forall in Ht.
  unfold applyMediaFilter; simpl; apply filter_res_pure; intros x Hx.
  unfold filter_callback; simpl.
  rewrite (js_get_prop x _ (proj1 (Bool.negb_true_iff _) (Hn x Hx))); simpl.
  apply macro_tagged_spec, Ht, Hx.
Qed.

Lemma applyMediaFilter_spec_witness :
  applyMediaFilter [media_a; media_b] "macro" = Ok [media_a].
Proof.
  destruct (proj2 (applyMediaFilter_spec [media_a; media_b]) eq_refl) as [_ [_ [Hm _]]].
  rewrite (Hm eq_refl). reflexivity.
Defined.

(** *** Media sort *)

Lemma insert_res_perm cmp x l l' : insert_res cmp x l = Ok l' -> Permutation (x :: l) l'.
Proof.
  revert l'; induction l as [|y r IH]; intros l' H; simpl in H.
  - injection H as <-. auto.
  - destruct (cmp x y) as [c|e]; simpl in H; [|discriminate].
    destruct (c <=? 0).
    + injection H as <-. auto.
    + destruct (insert_res cmp x r) as [r'|e] eqn:E; simpl in H; [|discriminate].
      injection H as <-.
      eapply perm_trans; [apply perm_swap|]. apply perm_skip, IH; reflexivity.
Qed.

Lemma sort_res_perm cmp l l' : sort_res cmp l = Ok l' -> Permutation l l'.
Proof.
  revert l'; induction l as [|x r IH]; intros l' H; simpl in H.
  - injection H as <-. auto.
  - destruct (sort_res cmp r) as [s|e] eqn:E; simpl in H; [|discriminate].
    eapply perm_trans; [apply perm_skip, (IH s); reflexivity|].
    exact (insert_res_perm cmp x s l' H).
Qed.

Lemma Sorted_weaken {A} (R R' : A -> A -> Prop) (l : list A) :
  (forall a b, R a b -> R' a b) -> Sorted R l -> Sorted R' l.
Proof.
  intros HR. induction 1 as [|a r Hs IH Hhd]; constructor; [exact IH|].
  destruct Hhd; constructor; apply HR; assumption.
Qed.

Lemma insert_curated_head x l : is_curated x = true -> insert_by curated_f x l = x :: l.
Proof.
  intros Hx. destruct l as [|y r]; simpl; [reflexivity|].
  unfold curated_f. rewrite Hx. destruct (is_curated y); reflexivity.
Qed.

Lemma insert_curated_after x A B :
  is_curated x = false -> Forall (fun m => is_curated m = true) A ->
  Forall (fun m => is_curated m = false) B ->
  insert_by curated_f x (A ++ B) = (A ++ x :: B)%list.
Proof.
  intros Hx HA HB. induction HA as [|y A Hy HA IH]; simpl.
  - destruct HB as [|y B Hy HB]; simpl; [reflexivity|].
    unfold curated_f. rewrite Hx, Hy. reflexivity.
  - unfold curated_f at 1. rewrite Hx, Hy. simpl. rewrite IH. reflexivity.
Qed.

Lemma sort_by_curated l :
  sort_by curated_f l = (filter is_curated l ++ filter (fun m => negb (is_curated m)) l)%list.
Proof.
  induction l as [|x r IH]; simpl; [reflexivity|]. rewrite IH.
  destruct (is_curated x) eqn:Hx; simpl.
  - apply insert_curated_head; exact Hx.
  - apply insert_curated_after; [exact Hx| |].
    + apply Forall_forall. intros m Hm. apply filter_In in Hm. apply Hm.
    + apply Forall_forall. intros m Hm. apply filter_In in Hm.
      apply Bool.negb_true_iff, Hm.
Qed.

Lemma cmp_curated_pure a b :
  nullish a = false -> nullish b = false -> cmp_curated a b = Ok (curated_f a b).
Proof.
  intros Ha Hb. unfold cmp_curated, curated_f, is_curated.
  rewrite (js_get_prop a _ Ha), (js_get_prop b _ Hb). simpl.
  destruct (truthy (prop a "isCurated")), (truthy (prop b "isCurated")); reflexivity.
Qed.

Lemma cmp_chronological_pure new_Date a b :
  nullish a = false -> nullish b = false ->
  date_of new_Date (prop a "uploadDate") <> None -> date_of new_Date (prop b "uploadDate") <> None ->
  cmp_chronological new_Date a b = Ok (chrono_f new_Date a b).
Proof.
  intros Ha Hb Da Db. unfold cmp_chronological, chrono_f, upload_time.
  rewrite (js_get_prop a _ Ha), (js_get_prop b _ Hb). simpl.
  destruct (date_of new_Date (prop a "uploadDate")); [|congruence].
  destruct (date_of new_Date (prop b "uploadDate")); [reflexivity|congruence].
Qed.

Lemma cmp_title_pure localeCompare a b :
  nullish a = false -> nullish b = false -> title_ok a = true -> title_ok b = true ->
  cmp_title localeCompare a b = Ok (title_f localeCompare a b).
Proof.
  intros Ha Hb Ta Tb. unfold cmp_title, title_key, title_f, title_lower, title_ok in *.
  rewrite (js_get_prop a _ Ha), (js_get_prop b _ Hb). simpl.
  destruct (js_or (prop a "title") (JStr "")); try discriminate.
  destruct (js_or (prop b "title") (JStr "")); try discriminate.
  reflexivity.
Qed.

Lemma cmp_type_pure localeCompare a b :
  nullish a = false -> nullish b = false -> type_ok a = true -> type_ok b = true ->
  cmp_type localeCompare a b = Ok (type_f localeCompare a b).
Proof.
  intros Ha Hb Ta Tb. unfold cmp_type, type_f, type_str, type_ok in *.
  rewrite (js_get_prop a _ Ha), (js_get_prop b _ Hb). simpl.
  destruct (js_or (prop a "type") (JStr "")); try discriminate.
  destruct (js_or (prop b "type") (JStr "")); try discriminate.
  reflexivity.
Qed.

Lemma sort_copy_ok cmp (h : heap) l h' q :
  rbind (sort_res cmp l) (fun l' => Ok ((h ++ [l'])%list, List.length h)) = Ok (h', q) ->
  q = List.length h /\ exists l', h' = (h ++ [l'])%list /\ Permutation l l'.
Proof.
  destruct (sort_res cmp l) as [l'|e] eqn:E; simpl; [|discriminate].
  intros Hr. injection Hr as <- <-. split; [reflexivity|].
  exists l'. split; [reflexivity|]. exact (sort_res_perm cmp l l' E).
Qed.

(** C7: [applyMediaSort] on the array at address [p] leaves every existing
    array unchanged and returns a fresh array holding a permutation of it;
    'curated' puts the curated items first, each group in its original order;
    'chronological' orders by upload time descending, a missing date counting
    as the epoch (for dates [new Date] parses); 'title' orders by lower-cased
    title and 'type' by type under a [localeCompare] that is antisymmetric
    (for titles and types that are strings or falsy); any other mode returns a
    copy in the original order. Items are not [null]/[undefined]. *)
Theorem applyMediaSort_spec (new_Date : jv -> option Z) (localeCompare : string -> string -> Z)
    (h : heap) (p : nat) (mediaList : list jv) :
  nth_error h p = Some mediaList ->
  (forall mode h' q, applyMediaSort new_Date localeCompare mode h p = Ok (h', q) ->
     q = List.length h /\ exists l', h' = (h ++ [l'])%list /\ Permutation mediaList l') /\
  (forall mode, mode <> "curated" -> mode <> "chronological" -> mode <> "title" -> mode <> "type" ->
     applyMediaSort new_Date localeCompare mode h p = Ok ((h ++ [mediaList])%list, List.length h)) /\
  (forallb (fun m => negb (nullish m)) mediaList = true ->
   applyMediaSort new_Date localeCompare "curated" h p =
     Ok ((h ++ [filter is_curated mediaList ++ filter (fun m => negb (is_curated m)) mediaList])%list,
         List.length h) /\
   ((forall m, In m mediaList -> date_of new_Date (prop m "uploadDate") <> None) ->
    exists l', applyMediaSort new_Date localeCompare "chronological" h p = Ok ((h ++ [l'])%list, List.length h) /\
               Sorted (fun a b => upload_time new_Date b <= upload_time new_Date a) l') /\
   ((forall x y, 0 < localeCompare x y -> localeCompare y x <= 0) ->
    (forallb title_ok mediaList = true ->
     exists l', applyMediaSort new_Date localeCompare "title" h p = Ok ((h ++ [l'])%list, List.length h) /\
                Sorted (fun a b => localeCompare (title_lower a) (title_lower b) <= 0) l') /\
    (forallb type_ok mediaList = true ->
     exists l', applyMediaSort new_Date localeCompare "type" h p = Ok ((h ++ [l'])%list, List.length h) /\
                Sorted (fun a b => localeCompare (type_str a) (type_str b) <= 0) l'))).
Proof.
  intros Hp. unfold applyMediaSort. rewrite Hp.
  split; [|split].
  - intros mode h' q.
    destruct (String.eqb mode "curated"); [apply sort_copy_ok|].
    destruct (String.eqb mode "chronological"); [apply sort_copy_ok|].
    destruct (String.eqb mode "title"); [apply sort_copy_ok|].
    destruct (String.eqb mode "type"); [apply sort_copy_ok|].
    intros Hr. injection Hr as <- <-. split; [reflexivity|].
    exists mediaList. split; reflexivity.
  - intros mode H1 H2 H3 H4.
    apply String.eqb_neq in H1, H2, H3, H4. rewrite H1, H2, H3, H4. reflexivity.
  - intros Hn. rewrite forallb_forall in Hn.
    assert (Hn' : forall m, In m mediaList -> nullish m = false)
      by (intros m Hm; apply Bool.negb_true_iff, Hn, Hm).
    split; [|split].
    + simpl. rewrite (sort_res_pure _ curated_f);
        [|intros a b Ha Hb; apply cmp_curated_pure; auto].
      simpl. rewrite sort_by_curated. reflexivity.
    + intros Hd. exists (sort_by (chrono_f new_Date) mediaList). simpl.
      rewrite (sort_res_pure _ (chrono_f new_Date));
        [|intros a b Ha Hb; apply cmp_chronological_pure; auto].
      split; [reflexivity|].
      eapply Sorted_weaken; [|apply (sort_by_sorted (chrono_f new_Date))].
      * intros a b Hab. unfold chrono_f in Hab. lia.
      * intros a b Hab. unfold chrono_f in *. lia.
    + intros Hlc. split.
      * intros Ht. rewrite forallb_forall in Ht.
        exists (sort_by (title_f localeCompare) mediaList). simpl.
        rewrite (sort_res_pure _ (title_f localeCompare));
          [|intros a b Ha Hb; apply cmp_title_pure; auto].
        split; [reflexivity|].
        apply (sort_by_sorted (title_f localeCompare)).
        intros a b; unfold title_f; apply Hlc.
      * intros Ht. rewrite forallb_forall in Ht.
        exists (sort_by (type_f localeCompare) mediaList). simpl.
        rewrite (sort_res_pure _ (type_f localeCompare));
          [|intros a b Ha Hb; apply cmp_type_pure; auto].
        split; [reflexivity|].
        apply (sort_by_sorted (type_f localeCompare)).
        intros a b; unfold type_f; apply Hlc.
Qed.

Lemma applyMediaSort_spec_witness :
  applyMediaSort (fun _ => None) (fun _ _ => 0) "curated" [[media_a; media_c]] 0
    = Ok ([[media_a; media_c]; [media_c; media_a]], 1%nat).
Proof.
  exact (proj1 (proj2 (proj2 (applyMediaSort_spec (fun _ => None) (fun _ _ => 0)
           [[media_a; media_c]] 0 [media_a; media_c] eq_refl)) eq_refl)).
Defined.

(** *** A save that finds nothing to compress writes nothing *)

Lemma quiet_ret {A} (a : A) w : quiet (ret a) w a.
Proof. left; reflexivity. Qed.

Lemma quiet_bind {A B} (c : M A) (k : A -> M B) w a b :
  quiet c w a -> quiet (k a) w b -> quiet (bind c k) w b.
Proof.
  unfold quiet, bind. intros [H|[e H]] Hk; rewrite H; [exact Hk|right; exists e; reflexivity].
Qed.

Lemma prop_of_get o k v : js_get o k = Ok v -> prop o k = v.
Proof. unfold prop. intros ->. reflexivity. Qed.

Lemma existsb_nth_false {A} (f : A -> bool) l j d :
  f d = false -> existsb f l = false -> f (nth j l d) = false.
Proof.
  intros Hd Hl. destruct (Nat.lt_ge_cases j (List.length l)) as [Hj|Hj].
  - destruct (f (nth j l d)) eqn:E; [|reflexivity].
    assert (existsb f l = true) by (apply existsb_exists; exists (nth j l d); split; [apply nth_In|]; assumption).
    congruence.
  - rewrite nth_overflow by exact Hj. exact Hd.
Qed.

Section Quiet.
Variable setItem_fails : storage -> string -> json_text -> option jserr.
Variable compress : string -> string.

Lemma compress_main_quiet i k a w :
    long_url (prop (prop (nth i (coins (mgr w)) JUndef) "images") k) = false ->
    quiet (compress_main compress i k a) w a.
  Proof.
    intros H. unfold compress_main, quiet, bind, coin_at, get_mgr, ret, lift. simpl.
    destruct (js_get (nth i (coins (mgr w)) JUndef) "images") as [imgs|e] eqn:E1;
      [|right; eexists; reflexivity].
    destruct (js_get imgs k) as [v|e] eqn:E2; [|right; eexists; reflexivity].
    rewrite (prop_of_get _ _ _ E1), (prop_of_get _ _ _ E2) in H. unfold long_url in H.
    rewrite H. left; reflexivity.
  Qed.

Lemma compress_media_item_quiet i j a w :
    coin_long_images (nth i (coins (mgr w)) JUndef) = false ->
    quiet (compress_media_item compress i j a) w a.
  Proof.
    intros H. unfold coin_long_images in H. apply Bool.orb_false_iff in H as [_ H].
    unfold compress_media_item, quiet, bind, coin_at, get_mgr, ret, lift. simpl.
    destruct (js_get (nth i (coins (mgr w)) JUndef) "media") as [media|e] eqn:E1;
      [|right; eexists; reflexivity].
    destruct (js_get media "images") as [mimgs|e] eqn:E2; [|right; eexists; reflexivity].
    rewrite (prop_of_get _ _ _ E1), (prop_of_get _ _ _ E2) in H.
    destruct mimgs as [| | | | |l|]; try (left; reflexivity).
    destruct (js_get (nth j l JUndef) "data") as [data|e] eqn:E3; [|right; eexists; reflexivity].
    assert (Hd : long_url (prop (nth j l JUndef) "data") = false)
      by (apply (existsb_nth_false (fun it => long_url (prop it "data"))); [reflexivity|exact H]).
    rewrite (prop_of_get _ _ _ E3) in Hd. unfold long_url in Hd. rewrite Hd.
    left; reflexivity.
  Qed.

Lemma compress_media_from_quiet i fuel j a w :
    coin_long_images (nth i (coins (mgr w)) JUndef) = false ->
    quiet (compress_media_from compress i j fuel a) w a.
  Proof.
    intros H. revert j. induction fuel as [|f IH]; intros j; simpl; [apply quiet_ret|].
    apply (quiet_bind _ _ _ a); [apply compress_media_item_quiet, H|apply IH].
  Qed.

Lemma compress_media_quiet i a w :
    coin_long_images (nth i (coins (mgr w)) JUndef) = false ->
    quiet (compress_media compress i a) w a.
  Proof.
    intros H. unfold quiet, compress_media, coin_at, bind, get_mgr, lift, ret, throw. simpl.
    destruct (js_get (nth i (coins (mgr w)) JUndef) "media") as [media|e];
      [|right; eexists; reflexivity].
    destruct (negb (truthy media)); [left; reflexivity|].
    destruct (js_get media "images") as [mimgs|e]; [|right; eexists; reflexivity].
    destruct (negb (truthy mimgs)); [left; reflexivity|].
    destruct mimgs; try (right; eexists; reflexivity); try (left; reflexivity).
    apply compress_media_from_quiet, H.
  Qed.

Lemma compress_coins_from_quiet fuel i a w :
    existsb coin_long_images (coins (mgr w)) = false ->
    quiet (compress_coins_from compress i fuel a) w a.
  Proof.
    intros H. revert i a. induction fuel as [|f IH]; intros i a; simpl; [apply quiet_ret|].
    assert (Hi : coin_long_images (nth i (coins (mgr w)) JUndef) = false)
      by (apply existsb_nth_false; [reflexivity|exact H]).
    apply Bool.orb_false_iff in Hi as Hi'. destruct Hi' as [Hm Hmed].
    apply Bool.orb_false_iff in Hm as [Ho Hr].
    apply (quiet_bind _ _ _ a); [|apply IH].
    unfold compress_coin.
    apply (quiet_bind _ _ _ a); [apply compress_main_quiet, Ho|].
    apply (quiet_bind _ _ _ a); [apply compress_main_quiet, Hr|].
    apply compress_media_quiet, Hi.
  Qed.

Lemma handleStorageQuotaExceeded_quiet w :
    existsb coin_long_images (coins (mgr w)) = false ->
    quiet (handleStorageQuotaExceeded setItem_fails compress) w NothingToCompress.
  Proof.
    intros H. unfold handleStorageQuotaExceeded, get_mgr. unfold bind at 1. simpl.
    apply (quiet_bind _ _ _ false); [apply compress_coins_from_quiet, H|apply quiet_ret].
  Qed.
End Quiet.

(** C3: when the estimated size is over 4 MB and no coin has a main image or a
    media [data] field longer than 100,000 characters, [saveToStorage] changes
    nothing: neither localStorage key is written (nor the in-memory state), and
    it reports that there was nothing to compress or an error. *)
Theorem saveToStorage_oversized_no_write setItem_fails compress w :
  size_limit < estimated_size (mgr w) ->
  existsb coin_long_images (coins (mgr w)) = false ->
  fst (saveToStorage setItem_fails compress w) = w /\
  ls (fst (saveToStorage setItem_fails compress w)) = ls w /\
  (snd (saveToStorage setItem_fails compress w) = Ok NothingToCompress \/
   exists e, snd (saveToStorage setItem_fails compress w) = Ok (StorageError e) \/
             snd (saveToStorage setItem_fails compress w) = Throw e).
Proof.
  intros Hs Hl.
  assert (Hq : exists r, saveToStorage setItem_fails compress w = (w, r) /\
                         (r = Ok NothingToCompress \/ exists e, r = Ok (StorageError e) \/ r = Throw e)).
  { unfold saveToStorage, try_catch. unfold bind at 1, get_mgr. cbv beta iota zeta.
    apply Z.ltb_lt in Hs. rewrite Hs. cbv beta iota zeta.
    destruct (handleStorageQuotaExceeded_quiet setItem_fails compress w Hl) as [H|[e H]];
      rewrite H; [eexists; split; [reflexivity|left; reflexivity]|].
    destruct e; try (eexists; split; [reflexivity|right; eexists; left; reflexivity]).
    destruct (handleStorageQuotaExceeded_quiet setItem_fails compress w Hl) as [H'|[e' H']];
      rewrite H'; eexists; (split; [reflexivity|]); [left; reflexivity|right; exists e'; right; reflexivity]. }
  destruct Hq as [r [H Hr]]. rewrite H. simpl. split; [reflexivity|split; [reflexivity|exact Hr]].
Qed.

Lemma str_length_app s t : String.length (s ++ t) = (String.length s + String.length t)%nat.
Proof. induction s; simpl; auto. Qed.

Lemma dbl_length k s : Z.of_nat (String.length (dbl k s)) = 2 ^ Z.of_nat k * Z.of_nat (String.length s).
Proof.
  revert s; induction k as [|k IH]; intros s; simpl dbl; [change (2 ^ Z.of_nat 0) with 1; lia|].
  rewrite IH, str_length_app, Nat2Z.inj_add, Nat2Z.inj_succ, Z.pow_succ_r by lia. ring.
Qed.

Lemma escape_length s : (String.length s <= String.length (escape s))%nat.
Proof.
  induction s as [|c r IH]; simpl; [lia|].
  rewrite str_length_app.
  assert (1 <= String.length (escape_char c))%nat.
  { unfold escape_char.
    repeat match goal with |- context [if ?b then _ else _] => destruct b end; simpl; lia. }
  lia.
Qed.

Lemma big_coin_size s :
  (String.length s + 2 <= String.length (json_print (json_norm (JArr [JObj [("id", JNum 1); ("notes", JStr s)]]))))%nat.
Proof.
  simpl. rewrite !str_length_app.
  pose proof (escape_length s). simpl. lia.
Qed.

Lemma world_big_oversized : size_limit < estimated_size (mgr world_big).
Proof.
  unfold estimated_size, text_length, JSON_stringify, text_value.
  change (coins (mgr world_big)) with [JObj [("id", JNum 1); ("notes", JStr (dbl 21 "A"))]].
  pose proof (big_coin_size (dbl 21 "A")) as H.
  pose proof (dbl_length 21 "A") as Hd.
  change (Z.of_nat (String.length "A")) with 1 in Hd.
  change (Z.of_nat 21) with 21 in Hd.
  unfold size_limit. lia.
Qed.

Lemma saveToStorage_oversized_no_write_witness :
  ls (fst (saveToStorage (fun _ _ _ => None) (fun s => s) world_big)) = ls world_big /\
  ls_get "coinCollection" (ls world_big) = Some (JSON_stringify (JArr [])) /\
  coins (mgr world_big) = [big_coin].
Proof.
  split; [|split; reflexivity].
  exact (proj1 (proj2 (saveToStorage_oversized_no_write (fun _ _ _ => None) (fun s => s) world_big
           world_big_oversized eq_refl))).
Defined.

(** *** Saving and loading round-trip *)

Lemma clean_arr l : clean (JArr l) = forallb clean l.
Proof. induction l as [|x r IH]; simpl; [reflexivity|]. simpl in IH. rewrite IH. reflexivity. Qed.

Lemma clean_obj l : clean (JObj l) = forallb (fun kv => clean (snd kv)) l.
Proof.
  induction l as [|[k x] r IH]; simpl; [reflexivity|]. simpl in IH. rewrite IH. reflexivity.
Qed.

Lemma json_norm_clean v : clean v = true -> json_norm v = v.
Proof.
  induction v as [| | | | |l IH|l IH] using jv_ind'; intros Hc; try reflexivity; try discriminate.
  - rewrite clean_arr in Hc. simpl. f_equal.
    induction IH as [|x r Hx Hr IHr]; simpl; [reflexivity|].
    simpl in Hc. apply andb_prop in Hc as [Hcx Hcr].
    rewrite (IHr Hcr). f_equal. destruct x; [discriminate|..]; apply Hx; exact Hcx.
  - rewrite clean_obj in Hc. simpl. f_equal.
    induction IH as [|[k x] r Hx Hr IHr]; simpl; [reflexivity|].
    simpl in Hc, Hx. apply andb_prop in Hc as [Hcx Hcr].
    destruct x; [discriminate|..]; rewrite (IHr Hcr); f_equal; f_equal; apply Hx; exact Hcx.
Qed.

Lemma assoc_get_clean k l v :
  forallb (fun kv => clean (snd kv)) l = true -> assoc_get k l = Some v -> clean v = true.
Proof.
  induction l as [|[k' x] r IH]; simpl; [discriminate|].
  intros Hc. apply andb_prop in Hc as [Hx Hr].
  destruct (String.eqb k k'); [intros H; injection H as <-; exact Hx|apply IH, Hr].
Qed.

Lemma assoc_set_clean k v l :
  forallb (fun kv => clean (snd kv)) l = true -> clean v = true ->
  forallb (fun kv => clean (snd kv)) (assoc_set k v l) = true.
Proof.
  induction l as [|[k' x] r IH]; simpl; intros Hc Hv; [rewrite Hv; reflexivity|].
  apply andb_prop in Hc as [Hx Hr].
  destruct (String.eqb k k'); simpl; [rewrite Hv, Hr; reflexivity|rewrite Hx, IH; auto].
Qed.

(** A value the program reads: clean or [undefined]. *)
Lemma js_get_clean o k v :
  (o = JUndef \/ clean o = true) -> js_get o k = Ok v -> v = JUndef \/ clean v = true.
Proof.
  intros [->|Ho] H; [discriminate|].
  destruct o as [| | | | |l|l]; simpl in H.
  - discriminate Ho.
  - discriminate H.
  - injection H as <-. left; reflexivity.
  - injection H as <-. left; reflexivity.
  - injection H as <-. destruct (String.eqb k "length"); [right|left]; reflexivity.
  - injection H as <-. destruct (String.eqb k "length"); [right|left]; reflexivity.
  - injection H as <-. rewrite clean_obj in Ho. destruct (assoc_get k l) eqn:E; [|left; reflexivity].
    right. exact (assoc_get_clean _ _ _ Ho E).
Qed.

Lemma js_set_clean o k v o' :
  (o = JUndef \/ clean o = true) -> clean v = true -> js_set o k v = Ok o' -> clean o' = true.
Proof.
  intros [->|Ho] Hv H; [discriminate|].
  destruct o as [| | | | |l|l]; simpl in H; try discriminate.
  - injection H as <-. exact Ho.
  - injection H as <-. rewrite clean_obj in *. apply assoc_set_clean; assumption.
Qed.

Lemma nth_clean l i : forallb clean l = true -> nth i l JUndef = JUndef \/ clean (nth i l JUndef) = true.
Proof.
  intros H. destruct (Nat.lt_ge_cases i (List.length l)) as [Hi|Hi].
  - right. rewrite forallb_forall in H. apply H, nth_In, Hi.
  - left. apply nth_overflow, Hi.
Qed.

Lemma replace_nth_clean l i x :
  forallb clean l = true -> clean x = true -> forallb clean (replace_nth l i x) = true.
Proof.
  revert i; induction l as [|y r IH]; intros [|i] Hl Hx; simpl in *; auto.
  - apply andb_prop in Hl as [_ Hr]. rewrite Hx, Hr. reflexivity.
  - apply andb_prop in Hl as [Hy Hr]. rewrite Hy, IH; auto.
Qed.

Lemma keeps_ret {A} P (a : A) : keeps P (ret a).
Proof. intros w H; exact H. Qed.

Lemma keeps_lift {A} P (r : res A) : keeps P (lift r).
Proof. intros w H; exact H. Qed.

Lemma keeps_get_mgr P : keeps P get_mgr.
Proof. intros w H; exact H. Qed.

Lemma keeps_throw {A} P e : keeps P (@throw A e).
Proof. intros w H; exact H. Qed.

Lemma keeps_bind {A B} P (c : M A) (k : A -> M B) :
  keeps P c -> (forall a, keeps P (k a)) -> keeps P (bind c k).
Proof.
  intros Hc Hk w Hw. unfold bind. specialize (Hc w Hw).
  destruct (c w) as [w1 [a|e]]; simpl in *; [apply Hk|]; exact Hc.
Qed.

Lemma keeps_try_catch {A} P (c : M A) (h : jserr -> M A) :
  keeps P c -> (forall e, keeps P (h e)) -> keeps P (try_catch c h).
Proof.
  intros Hc Hh w Hw. unfold try_catch. specialize (Hc w Hw).
  destruct (c w) as [w1 [a|e]]; simpl in *; [exact Hc|apply Hh, Hc].
Qed.

Lemma keeps_setItem m0 setItem_fails k t :
  keeps (fun w => saved_fields_kept m0 (mgr w)) (setItem setItem_fails k t).
Proof. intros w H. unfold setItem. destruct (setItem_fails (ls w) k t); exact H. Qed.

Lemma saved_fields_kept_set_coin m0 m i c :
  saved_fields_kept m0 m -> clean c = true ->
  saved_fields_kept m0 (set_coins m (replace_nth (coins m) i c)).
Proof.
  intros [Hc [H1 [H2 H3]]] Hx. repeat split; simpl; auto. apply replace_nth_clean; assumption.
Qed.

Lemma clean_str s : clean (JStr s) = true.
Proof. reflexivity. Qed.

Section KeepFields.
Variable setItem_fails : storage -> string -> json_text -> option jserr.
Variable compress : string -> string.
Variable m0 : manager.
Let P := fun w => saved_fields_kept m0 (mgr w).

Lemma compress_main_keeps i k a : keeps P (compress_main compress i k a).
  Proof.
    intros w H. unfold compress_main, bind, coin_at, get_mgr, ret, lift, set_coin, put_mgr. simpl.
    pose proof (nth_clean _ i (proj1 H)) as Hcoin.
    destruct (js_get (nth i (coins (mgr w)) JUndef) "images") as [imgs|e] eqn:E1; simpl; [|exact H].
    destruct (js_get imgs k) as [v|e] eqn:E2; simpl; [|exact H].
    destruct (truthy v && length_gt v 100000); simpl; [|exact H].
    destruct (js_set imgs k (JStr (compress (to_string v)))) as [imgs'|e] eqn:E3; simpl; [|exact H].
    destruct (js_set (nth i (coins (mgr w)) JUndef) "images" imgs') as [coin'|e] eqn:E4; simpl; [|exact H].
    apply saved_fields_kept_set_coin; [exact H|].
    apply (js_set_clean _ _ _ _ Hcoin (js_set_clean _ _ _ _ (js_get_clean _ _ _ Hcoin E1) (clean_str _) E3) E4).
  Qed.

Lemma compress_media_item_keeps i j a : keeps P (compress_media_item compress i j a).
  Proof.
    intros w H. unfold compress_media_item, bind, coin_at, get_mgr, ret, lift, set_coin, put_mgr. simpl.
    pose proof (nth_clean _ i (proj1 H)) as Hcoin.
    destruct (js_get (nth i (coins (mgr w)) JUndef) "media") as [media|e] eqn:E1; simpl; [|exact H].
    pose proof (js_get_clean _ _ _ Hcoin E1) as Hmedia.
    destruct (js_get media "images") as [mimgs|e] eqn:E2; simpl; [|exact H].
    pose proof (js_get_clean _ _ _ Hmedia E2) as Hm.
    destruct mimgs as [| | | | |l|]; simpl; try exact H.
    destruct Hm as [Hm|Hm]; [discriminate|]. rewrite clean_arr in Hm.
    pose proof (nth_clean _ j Hm) as Hitem.
    destruct (js_get (nth j l JUndef) "data") as [data|e] eqn:E3; simpl; [|exact H].
    destruct (truthy data && length_gt data 100000); simpl; [|exact H].
    destruct (js_set (nth j l JUndef) "data" (JStr (compress (to_string data)))) as [item'|e] eqn:E4;
      simpl; [|exact H].
    destruct (js_set media "images" (JArr (replace_nth l j item'))) as [media'|e] eqn:E5; simpl; [|exact H].
    destruct (js_set (nth i (coins (mgr w)) JUndef) "media" media') as [coin'|e] eqn:E6; simpl; [|exact H].
    apply saved_fields_kept_set_coin; [exact H|].
    eapply (js_set_clean _ _ _ _ Hcoin); [|exact E6].
    eapply (js_set_clean _ _ _ _ Hmedia); [|exact E5].
    rewrite clean_arr. apply replace_nth_clean; [exact Hm|].
    exact (js_set_clean _ _ _ _ Hitem (clean_str _) E4).
  Qed.

Lemma compress_media_from_keeps i j fuel a : keeps P (compress_media_from compress i j fuel a).
  Proof.
    revert j a. induction fuel as [|f IH]; intros j a; simpl; [apply keeps_ret|].
    apply keeps_bind; [apply compress_media_item_keeps|intros; apply IH].
  Qed.

Lemma compress_media_keeps i a : keeps P (compress_media compress i a).
  Proof.
    unfold compress_media, coin_at.
    apply keeps_bind; [apply keeps_bind; [apply keeps_get_mgr|intros; apply keeps_ret]|intros coin].
    apply keeps_bind; [apply keeps_lift|intros media].
    destruct (negb (truthy media)); [apply keeps_ret|].
    apply keeps_bind; [apply keeps_lift|intros mimgs].
    destruct (negb (truthy mimgs)); [apply keeps_ret|].
    destruct mimgs; try apply keeps_ret; try apply keeps_throw.
    apply compress_media_from_keeps.
  Qed.

Lemma compress_coins_from_keeps fuel i a : keeps P (compress_coins_from compress i fuel a).
  Proof.
    revert i a. induction fuel as [|f IH]; intros i a; simpl; [apply keeps_ret|].
    apply keeps_bind; [|intros; apply IH].
    unfold compress_coin.
    apply keeps_bind; [apply compress_main_keeps|intros].
    apply keeps_bind; [apply compress_main_keeps|intros].
    apply compress_media_keeps.
  Qed.

Lemma handleStorageQuotaExceeded_keeps : keeps P (handleStorageQuotaExceeded setItem_fails compress).
  Proof.
    unfold handleStorageQuotaExceeded.
    apply keeps_bind; [apply keeps_get_mgr|intros m].
    apply keeps_bind; [apply compress_coins_from_keeps|intros b].
    destruct b; [|apply keeps_ret].
    apply keeps_try_catch; [|intros; apply keeps_ret].
    apply keeps_bind; [apply keeps_get_mgr|intros m'].
    apply keeps_bind; [apply keeps_setItem|intros].
    apply keeps_bind; [apply keeps_setItem|intros].
    apply keeps_ret.
  Qed.

Lemma saveToStorage_keeps : keeps P (saveToStorage setItem_fails compress).
  Proof.
    unfold saveToStorage.
    apply keeps_try_catch; [|intros e; destruct e; try apply keeps_ret; apply handleStorageQuotaExceeded_keeps].
    apply keeps_bind; [apply keeps_get_mgr|intros m]. cbv zeta.
    destruct (size_limit <? estimated_size m); [apply handleStorageQuotaExceeded_keeps|].
    apply keeps_bind; [apply keeps_setItem|intros].
    apply keeps_bind; [apply keeps_setItem|intros].
    apply keeps_ret.
  Qed.
End KeepFields.

Lemma write_pair_written setItem_fails m (r : save_report) w w' r' :
  (setItem setItem_fails "coinCollection" (JSON_stringify (JArr (coins m))) ;;;
   setItem setItem_fails "coinCollectionMeta" (JSON_stringify (meta_of m)) ;;;
   ret r) w = (w', Ok r') ->
  mgr w = m -> written w' /\ r' = r.
Proof.
  unfold bind, setItem, ret. intros H Hm.
  destruct (setItem_fails (ls w) "coinCollection" _); simpl in H; [discriminate|].
  destruct (setItem_fails _ "coinCollectionMeta" _); simpl in H; [discriminate|].
  injection H as <- <-. split; [|reflexivity].
  exists (ls w). simpl. rewrite Hm. reflexivity.
Qed.

Ltac split_run E w1 a e :=
  match goal with
  | |- context [let (_, _) := ?x in _] => destruct x as [w1 [a|e]] eqn:E
  end.

Lemma handleStorageQuotaExceeded_written setItem_fails compress w w' r :
  handleStorageQuotaExceeded setItem_fails compress w = (w', Ok r) ->
  r = SavedDirect \/ r = SavedAfterCompression -> written w'.
Proof.
  unfold handleStorageQuotaExceeded. unfold bind at 1, get_mgr. cbv beta iota.
  unfold bind at 1. split_run E w1 b e; intros H Hr; [|discriminate].
  destruct b; [|injection H as _ <-; destruct Hr; discriminate].
  unfold try_catch in H. revert H. split_run E' w2 a e'; intros H; [|injection H as _ <-; destruct Hr; discriminate].
  injection H as <- <-.
  unfold bind at 1, get_mgr in E'. cbv beta iota in E'.
  apply write_pair_written in E'; [tauto|reflexivity].
Qed.

Lemma saveToStorage_written setItem_fails compress w w' r :
  saveToStorage setItem_fails compress w = (w', Ok r) ->
  r = SavedDirect \/ r = SavedAfterCompression -> written w'.
Proof.
  unfold saveToStorage, try_catch. unfold bind at 1, get_mgr. cbv beta iota zeta.
  destruct (size_limit <? estimated_size (mgr w)).
  - split_run E w1 a j.
    + intros H. injection H as <- <-. apply (handleStorageQuotaExceeded_written _ _ _ _ _ E).
    + destruct j; intros H Hr; try (injection H as _ <-; destruct Hr; discriminate).
      apply (handleStorageQuotaExceeded_written _ _ _ _ _ H Hr).
  - split_run E w1 a j.
    + intros H _. injection H as <- <-. apply write_pair_written in E; [tauto|reflexivity].
    + destruct j; intros H Hr; try (injection H as _ <-; destruct Hr; discriminate).
      apply (handleStorageQuotaExceeded_written _ _ _ _ _ H Hr).
Qed.

Lemma ls_get_put_same k t s : ls_get k (ls_put k t s) = Some t.
Proof.
  induction s as [|[k' t'] r IH]; simpl; [rewrite String.eqb_refl; reflexivity|].
  destruct (String.eqb k k') eqn:E; simpl; rewrite E; [reflexivity|exact IH].
Qed.

Lemma ls_get_put_other k k' t s : k <> k' -> ls_get k (ls_put k' t s) = ls_get k s.
Proof.
  intros Hk. apply String.eqb_neq in Hk.
  induction s as [|[k2 t2] r IH]; simpl; [rewrite Hk; reflexivity|].
  destruct (String.eqb k' k2) eqn:E; simpl.
  - apply String.eqb_eq in E. subst k2. rewrite Hk. reflexivity.
  - destruct (String.eqb k k2); [reflexivity|exact IH].
Qed.

Lemma strict_eq_sym a b : strict_eq a b = strict_eq b a.
Proof.
  destruct a, b; simpl; try reflexivity.
  - destruct b, b0; reflexivity.
  - apply Z.eqb_sym.
  - apply String.eqb_sym.
Qed.

Lemma set_insert_all_nodup acc l :
  nodup_strict l = true -> (forall x, In x l -> existsb (strict_eq x) acc = false) ->
  set_insert_all acc l = (acc ++ l)%list.
Proof.
  revert acc; induction l as [|x r IH]; intros acc Hn Hacc; simpl; [rewrite app_nil_r; reflexivity|].
  simpl in Hn. apply andb_prop in Hn as [Hx Hr]. apply Bool.negb_true_iff in Hx.
  rewrite (Hacc x (or_introl eq_refl)).
  rewrite IH; [rewrite <- app_assoc; reflexivity|exact Hr|].
  intros y Hy. rewrite existsb_app, (Hacc y (or_intror Hy)). simpl.
  destruct (strict_eq y x) eqn:E; [|reflexivity].
  rewrite strict_eq_sym in E.
  assert (existsb (strict_eq x) r = true) by (apply existsb_exists; exists y; auto).
  congruence.
Qed.

Lemma loadFromStorage_written m0 w :
  written w -> forallb clean (coins (mgr w)) = true -> forallb clean (expandedCoins (mgr w)) = true ->
  nodup_strict (expandedCoins (mgr w)) = true -> nextCoinId (mgr w) <> 0 -> nextAnnotationId (mgr w) <> 0 ->
  loadFromStorage (mkWorld m0 (ls w)) =
    Some (mkManager (coins (mgr w)) (currentMode m0) (nextCoinId (mgr w)) (nextAnnotationId (mgr w))
                    (quickAnnotationType m0) (expandedCoins (mgr w))).
Proof.
  intros [s Hs] Hc He Hn H1 H2. unfold loadFromStorage. simpl ls. rewrite Hs.
  rewrite ls_get_put_other by discriminate. rewrite ls_get_put_same.
  unfold JSON_parse, JSON_stringify, text_value.
  rewrite (json_norm_clean (JArr (coins (mgr w)))) by (rewrite clean_arr; exact Hc).
  rewrite ls_get_put_same.
  rewrite (json_norm_clean (meta_of (mgr w)))
    by (unfold meta_of; rewrite clean_obj; cbn [forallb snd]; rewrite clean_arr, He; reflexivity).
  unfold restore_counter, restore_expanded, meta_of. simpl.
  apply Z.eqb_neq in H1, H2. rewrite H1, H2. simpl.
  rewrite (set_insert_all_nodup [] _ Hn) by reflexivity. reflexivity.
Qed.

(** C2: for a manager state of the shape the program builds (no [undefined]
    in the coins or the expanded ids, expanded ids without repetition, counters
    not [0]), a [saveToStorage] that writes the collection and its metadata
    (directly or after compressing) keeps the counters and the expanded ids,
    and a later [loadFromStorage], whatever the manager state then, restores
    the saved coins, [nextCoinId], [nextAnnotationId] and [expandedCoins]. *)
Theorem saveToStorage_loadFromStorage_roundtrip setItem_fails compress w w' r m0 :
  mgr_saveable (mgr w) = true ->
  saveToStorage setItem_fails compress w = (w', Ok r) ->
  r = SavedDirect \/ r = SavedAfterCompression ->
  nextCoinId (mgr w') = nextCoinId (mgr w) /\ nextAnnotationId (mgr w') = nextAnnotationId (mgr w) /\
  expandedCoins (mgr w') = expandedCoins (mgr w) /\
  loadFromStorage (mkWorld m0 (ls w')) =
    Some (mkManager (coins (mgr w')) (currentMode m0) (nextCoinId (mgr w')) (nextAnnotationId (mgr w'))
                    (quickAnnotationType m0) (expandedCoins (mgr w'))).
Proof.
  intros Hs Hsave Hr. unfold mgr_saveable in Hs.
  apply andb_prop in Hs as [Hs H2]. apply andb_prop in Hs as [Hs H1].
  apply andb_prop in Hs as [Hs Hn]. apply andb_prop in Hs as [Hc He].
  apply Bool.negb_true_iff, Z.eqb_neq in H1, H2.
  assert (K : saved_fields_kept (mgr w) (mgr (fst (saveToStorage setItem_fails compress w))))
    by (apply saveToStorage_keeps; repeat split; exact Hc).
  rewrite Hsave in K. destruct K as [Hc' [K1 [K2 K3]]]. simpl in *.
  split; [exact K1|split; [exact K2|split; [exact K3|]]].
  apply loadFromStorage_written.
  - exact (saveToStorage_written _ _ _ _ _ Hsave Hr).
  - exact Hc'.
  - rewrite K3. exact He.
  - rewrite K3. exact Hn.
  - rewrite K1. exact H1.
  - rewrite K2. exact H2.
Qed.

Lemma saveToStorage_loadFromStorage_roundtrip_witness :
  exists m, loadFromStorage (mkWorld manager0 (ls (fst (saveToStorage (fun _ _ _ => None) (fun s => s) started_world))))
              = Some m /\
            coins m = coins (mgr started_world) /\ nextAnnotationId m = 1000.
Proof.
  destruct (saveToStorage_loadFromStorage_roundtrip (fun _ _ _ => None) (fun s => s) started_world
              (fst (saveToStorage (fun _ _ _ => None) (fun s => s) started_world)) SavedDirect manager0
              ltac:(vm_compute; reflexivity) ltac:(vm_compute; reflexivity) (or_introl eq_refl))
    as [_ [_ [_ H]]].
  eexists. split; [exact H|]. split; vm_compute; reflexivity.
Defined.

(** *** Two-sided annotations *)

Lemma assoc_get_set_same k v l : assoc_get k (assoc_set k v l) = Some v.
Proof.
  induction l as [|[k' v'] r IH]; simpl; [rewrite String.eqb_refl; reflexivity|].
  destruct (String.eqb k k') eqn:E; simpl; rewrite E; [reflexivity|exact IH].
Qed.

Lemma assoc_set_set k v v' l : assoc_set k v (assoc_set k v' l) = assoc_set k v l.
Proof.
  induction l as [|[k' x] r IH]; simpl; [rewrite String.eqb_refl; reflexivity|].
  destruct (String.eqb k k') eqn:E; simpl; rewrite E; [reflexivity|rewrite IH; reflexivity].
Qed.

Lemma assoc_set_keys k v l : In k (map fst l) -> map fst (assoc_set k v l) = map fst l.
Proof.
  induction l as [|[k' x] r IH]; simpl; [contradiction|].
  intros Hk. destruct (String.eqb k k') eqn:E; simpl; [reflexivity|].
  rewrite IH; [reflexivity|]. destruct Hk as [Hk|Hk]; [|exact Hk].
  subst k'. rewrite String.eqb_refl in E. discriminate.
Qed.

Lemma assign_keys al updates :
  map fst al = marker_keys -> marker_updates updates = true -> map fst (assign al updates) = marker_keys.
Proof.
  revert al; induction updates as [|[k v] r IH]; intros al Hal Hu; simpl; [exact Hal|].
  unfold marker_updates in Hu. cbn [forallb fst] in Hu. apply andb_prop in Hu as [Hk Hr].
  apply IH; [|exact Hr].
  rewrite assoc_set_keys; [exact Hal|]. rewrite Hal.
  apply existsb_exists in Hk as [k' [Hin Heq]]. apply String.eqb_eq in Heq. subst. exact Hin.
Qed.

Lemma forallb_replace_nth (f : jv -> bool) l i x :
  forallb f l = true -> f x = true -> forallb f (replace_nth l i x) = true.
Proof.
  revert i; induction l as [|y r IH]; intros [|i] Hl Hx; simpl in *; auto.
  - apply andb_prop in Hl as [_ Hr]. rewrite Hx, Hr. reflexivity.
  - apply andb_prop in Hl as [Hy Hr]. rewrite Hy, IH; auto.
Qed.

Lemma forallb_nth (f : jv -> bool) l i :
  forallb f l = true -> nth i l JUndef = JUndef \/ f (nth i l JUndef) = true.
Proof.
  intros H. destruct (Nat.lt_ge_cases i (List.length l)) as [Hi|Hi].
  - right. rewrite forallb_forall in H. apply H, nth_In, Hi.
  - left. apply nth_overflow, Hi.
Qed.

Lemma map_replace_nth_same (g : jv -> jv) l i x :
  g x = g (nth i l JUndef) -> map g (replace_nth l i x) = map g l.
Proof.
  revert i; induction l as [|y r IH]; intros [|i] H; simpl in *; auto.
  - rewrite H. reflexivity.
  - rewrite IH; auto.
Qed.

Lemma find_res_nth {A} (p : A -> res bool) l k i x d :
  find_res p l k = Ok (Some (i, x)) -> (k <= i)%nat /\ nth (i - k) l d = x.
Proof.
  revert k; induction l as [|y r IH]; intros k H; simpl in H; [discriminate|].
  destruct (p y) as [b|e]; simpl in H; [|discriminate].
  destruct b.
  - injection H as <- <-. rewrite Nat.sub_diag. split; [lia|reflexivity].
  - destruct (IH (S k) H) as [Hk Hn]. split; [lia|].
    replace (i - k)%nat with (S (i - S k)) by lia. exact Hn.
Qed.

Lemma filter_res_incl {A} (p : A -> res bool) l l' :
  filter_res p l = Ok l' -> forall x, In x l' -> In x l.
Proof.
  revert l'; induction l as [|y r IH]; intros l' H x Hx; simpl in H.
  - injection H as <-. exact Hx.
  - destruct (p y) as [b|e]; simpl in H; [|discriminate].
    destruct (filter_res p r) as [r'|e] eqn:E; simpl in H; [|discriminate].
    injection H as <-. destruct b; [destruct Hx as [<-|Hx]; [left; reflexivity|]|]; right; exact (IH r' eq_refl x Hx).
Qed.

Lemma two_sided_inv c :
  two_sided c = true ->
  exists cl o r, c = JObj cl /\ assoc_get "annotations" cl = Some (JObj [("obverse", JArr o); ("reverse", JArr r)]) /\
                 forallb marker_shaped o = true /\ forallb marker_shaped r = true.
Proof.
  unfold two_sided, prop. intros H. destruct c as [| | | | |l|cl]; simpl in H; try discriminate H.
  destruct (assoc_get "annotations" cl) as [a|] eqn:E; [|discriminate H].
  destruct a as [| | | | | |al]; try discriminate H.
  destruct al as [|[k1 v1] [|[k2 v2] [|]]]; try discriminate H;
    destruct v1 as [| | | | |o|]; try discriminate H;
    destruct v2 as [| | | | |r|]; try discriminate H.
  apply andb_prop in H as [H Hr]. apply andb_prop in H as [H Ho].
  apply andb_prop in H as [H1 H2]. apply String.eqb_eq in H1, H2. subst.
  exists cl, o, r. auto.
Qed.

(** Writing a new list of markers to one side of coin [i]. *)
Lemma annotate_step cs i coin anns side l l' anns' coin' :
  forallb two_sided cs = true -> nth i cs JUndef = coin ->
  js_get coin "annotations" = Ok anns -> js_get anns side = Ok (JArr l) ->
  (forallb marker_shaped l = true -> forallb marker_shaped l' = true) ->
  js_set anns side (JArr l') = Ok anns' -> js_set coin "annotations" anns' = Ok coin' ->
  forallb two_sided (replace_nth cs i coin') = true /\
  map strip_annotations (replace_nth cs i coin') = map strip_annotations cs.
Proof.
  intros Hcs Hnth Ha Hl Hl' Hs1 Hs2.
  destruct (forallb_nth two_sided cs i Hcs) as [Hu|Hcoin]; [rewrite <- Hnth, Hu in Ha; simpl in Ha; discriminate Ha|].
  rewrite Hnth in Hcoin.
  destruct (two_sided_inv _ Hcoin) as [cl [o [r [-> [Hann [Ho Hr]]]]]].
  simpl in Ha. rewrite Hann in Ha. injection Ha as <-.
  simpl in Hs2. injection Hs2 as <-.
  split.
  - apply forallb_replace_nth; [exact Hcs|].
    unfold two_sided, prop. simpl js_get. rewrite assoc_get_set_same.
    simpl in Hs1. injection Hs1 as <-.
    simpl in Hl. simpl.
    destruct (String.eqb side "obverse") eqn:E1; [|destruct (String.eqb side "reverse") eqn:E2];
      try discriminate Hl; injection Hl as ->; simpl.
    + rewrite Hl', Hr by exact Ho. reflexivity.
    + rewrite Ho, Hl' by exact Hr. reflexivity.
  - apply map_replace_nth_same. rewrite Hnth. simpl. rewrite assoc_set_set. reflexivity.
Qed.

Lemma marker_shaped_obj l : marker_shaped (JObj l) = true <-> map fst l = marker_keys.
Proof. unfold marker_shaped. destruct (list_eq_dec string_dec (map fst l) marker_keys); split; congruence. Qed.

Lemma keeps_loop_from P body :
  (forall i, keeps P (body i)) -> forall i fuel, keeps P (loop_from i fuel body).
Proof.
  intros Hb i fuel. revert i. induction fuel as [|f IH]; intros i; simpl; [apply keeps_ret|].
  apply keeps_bind; [apply Hb|intros; apply IH].
Qed.

Lemma keeps_forEach_side P sds body :
  (forall s, keeps P (body s)) -> keeps P (forEach_side sds body).
Proof.
  intros Hb. induction sds as [|s r IH]; simpl; [apply keeps_ret|].
  apply keeps_bind; [apply Hb|intros; apply IH].
Qed.

Section TwoSided.
Variable S0 : list jv.
Let P := fun w => forallb two_sided (coins (mgr w)) = true /\ map strip_annotations (coins (mgr w)) = S0.

Lemma addAnnotation_keeps coinId side x y label : keeps P (addAnnotation coinId side x y label).
  Proof.
    intros w [H1 H2]. unfold P.
    unfold addAnnotation, bind, get_mgr, ret, lift, put_mgr, set_coin, throw. simpl.
    destruct (negb (String.eqb (currentMode (mgr w)) "annotate")); [simpl; auto|].
    destruct (find_res (id_is coinId) (coins (mgr w)) 0) as [[[i coin]|]|e] eqn:Ef; simpl; auto.
    destruct (js_get coin "annotations") as [anns|e] eqn:Ea; simpl; auto.
    destruct (js_get anns side) as [lst|e] eqn:El; simpl; auto.
    destruct (js_get lst "length") as [len|e] eqn:Elen; simpl; auto.
    destruct lst as [| | | | |l|]; simpl; auto.
    match goal with |- context [js_set anns side (JArr ?l')] =>
      destruct (js_set anns side (JArr l')) as [anns'|e] eqn:Es1; simpl; auto end.
    destruct (js_set coin "annotations" anns') as [coin'|e] eqn:Es2; simpl; auto.
    destruct (find_res_nth _ _ _ _ _ JUndef Ef) as [_ Hn]. rewrite Nat.sub_0_r in Hn.
    match type of Es1 with js_set _ _ (JArr ?l') = _ =>
      assert (Hl' : forallb marker_shaped l = true -> forallb marker_shaped l' = true)
        by (intros Hl; rewrite forallb_app, Hl; reflexivity) end.
    destruct (annotate_step _ _ _ _ _ _ _ _ _ H1 Hn Ea El Hl' Es1 Es2) as [G1 G2].
    split; [exact G1|rewrite G2; exact H2].
  Qed.
Lemma update_side_keeps annotationId updates i side :
    marker_updates updates = true -> keeps P (update_side annotationId updates i side).
  Proof.
    intros Hu w [H1 H2]. unfold P.
    unfold update_side, bind, coin_at, get_mgr, ret, lift, set_coin, put_mgr, throw. simpl.
    destruct (js_get (nth i (coins (mgr w)) JUndef) "annotations") as [anns|e] eqn:Ea; simpl; auto.
    destruct (js_get anns side) as [lst|e] eqn:El; simpl; auto.
    destruct lst as [| | | | |l|]; simpl; auto.
    destruct (find_res (id_is annotationId) l 0) as [[[j a]|]|e] eqn:Ef; simpl; auto.
    destruct a as [| | | | | |al]; simpl; auto.
    destruct (js_set anns side (JArr (replace_nth l j (JObj (assign al updates))))) as [anns'|e] eqn:Es1;
      simpl; auto.
    destruct (js_set (nth i (coins (mgr w)) JUndef) "annotations" anns') as [coin'|e] eqn:Es2; simpl; auto.
    destruct (find_res_nth _ _ _ _ _ JUndef Ef) as [_ Hn]. rewrite Nat.sub_0_r in Hn.
    assert (Hl' : forallb marker_shaped l = true ->
                  forallb marker_shaped (replace_nth l j (JObj (assign al updates))) = true).
    { intros Hl. apply forallb_replace_nth; [exact Hl|].
      destruct (forallb_nth marker_shaped l j Hl) as [Hj|Hj]; rewrite Hn in Hj; [discriminate Hj|].
      apply marker_shaped_obj in Hj. apply marker_shaped_obj, assign_keys; assumption. }
    destruct (annotate_step _ _ _ _ _ _ _ _ _ H1 eq_refl Ea El Hl' Es1 Es2) as [G1 G2].
    split; [exact G1|rewrite G2; exact H2].
  Qed.

Lemma remove_side_keeps annotationId i side : keeps P (remove_side annotationId i side).
  Proof.
    intros w [H1 H2]. unfold P.
    unfold remove_side, bind, coin_at, get_mgr, ret, lift, set_coin, put_mgr, throw. simpl.
    destruct (js_get (nth i (coins (mgr w)) JUndef) "annotations") as [anns|e] eqn:Ea; simpl; auto.
    destruct (js_get anns side) as [lst|e] eqn:El; simpl; auto.
    destruct lst as [| | | | |l|]; simpl; auto.
    match goal with |- context [filter_res ?p l] =>
      destruct (filter_res p l) as [l'|e] eqn:Ef; simpl; auto;
      assert (Hl' : forallb marker_shaped l = true -> forallb marker_shaped l' = true)
        by (intros Hl; rewrite forallb_forall in *; intros z Hz; exact (Hl z (filter_res_incl _ _ _ Ef z Hz)))
    end.
    destruct (js_set anns side (JArr l')) as [anns'|e] eqn:Es1; simpl; auto.
    destruct (js_set (nth i (coins (mgr w)) JUndef) "annotations" anns') as [coin'|e] eqn:Es2; simpl; auto.
    destruct (annotate_step _ _ _ _ _ _ _ _ _ H1 eq_refl Ea El Hl' Es1 Es2) as [G1 G2].
    split; [exact G1|rewrite G2; exact H2].
  Qed.

Lemma updateAnnotation_keeps annotationId updates :
    marker_updates updates = true -> keeps P (updateAnnotation annotationId updates).
  Proof.
    intros Hu. unfold updateAnnotation, forEach_coin.
    apply keeps_bind; [apply keeps_get_mgr|intros m].
    apply keeps_loop_from. intros i. apply keeps_forEach_side. intros side.
    apply update_side_keeps, Hu.
  Qed.

Lemma removeAnnotation_keeps annotationId : keeps P (removeAnnotation annotationId).
  Proof.
    unfold removeAnnotation, forEach_coin.
    apply keeps_bind; [apply keeps_get_mgr|intros m].
    apply keeps_loop_from. intros i. apply keeps_forEach_side. intros side.
    apply remove_side_keeps.
  Qed.
End TwoSided.

Lemma new_coin_two_sided id isSample now : two_sided (new_coin id isSample now) = true.
Proof. destruct isSample; reflexivity. Qed.

(** C4: [addCoin] creates a coin whose annotations object has exactly the keys
    obverse and reverse, each an array of markers with the keys id, x, y,
    label, color; [addCoin], [addAnnotation], [updateAnnotation] (with the
    marker-key updates the program passes) and [removeAnnotation] keep every
    coin of that shape, whether they complete or throw, and the three
    annotation operations change nothing of the coins but their annotations. *)
Theorem annotations_two_sided_invariant :
  (forall id isSample now, two_sided (new_coin id isSample now) = true) /\
  (forall isSample now w, forallb two_sided (coins (mgr w)) = true ->
     coins (mgr (fst (addCoin isSample now w))) = (coins (mgr w) ++ [new_coin (nextCoinId (mgr w)) isSample now])%list /\
     forallb two_sided (coins (mgr (fst (addCoin isSample now w)))) = true) /\
  (forall coinId side x y label w, forallb two_sided (coins (mgr w)) = true ->
     forallb two_sided (coins (mgr (fst (addAnnotation coinId side x y label w)))) = true /\
     map strip_annotations (coins (mgr (fst (addAnnotation coinId side x y label w)))) =
       map strip_annotations (coins (mgr w))) /\
  (forall annotationId updates w, marker_updates updates = true -> forallb two_sided (coins (mgr w)) = true ->
     forallb two_sided (coins (mgr (fst (updateAnnotation annotationId updates w)))) = true /\
     map strip_annotations (coins (mgr (fst (updateAnnotation annotationId updates w)))) =
       map strip_annotations (coins (mgr w))) /\
  (forall annotationId w, forallb two_sided (coins (mgr w)) = true ->
     forallb two_sided (coins (mgr (fst (removeAnnotation annotationId w)))) = true /\
     map strip_annotations (coins (mgr (fst (removeAnnotation annotationId w)))) =
       map strip_annotations (coins (mgr w))).
Proof.
  split; [exact new_coin_two_sided|].
  split; [|split; [|split]].
  - intros isSample now w H. unfold addCoin, bind, get_mgr, put_mgr. cbn [fst snd coins mgr].
    split; [reflexivity|]. rewrite forallb_app, H. cbn [forallb].
    rewrite new_coin_two_sided. reflexivity.
  - intros coinId side x y label w H.
    apply (addAnnotation_keeps (map strip_annotations (coins (mgr w)))). split; [exact H|reflexivity].
  - intros annotationId updates w Hu H.
    apply (updateAnnotation_keeps (map strip_annotations (coins (mgr w)))); [exact Hu|]. split; [exact H|reflexivity].
  - intros annotationId w H.
    apply (removeAnnotation_keeps (map strip_annotations (coins (mgr w)))). split; [exact H|reflexivity].
Qed.

Lemma annotations_two_sided_invariant_witness :
  forallb two_sided (coins (mgr (fst (addAnnotation (JNum 1) "obverse" (JNum 10) (JNum 20) JNull started_world)))) = true.
Proof.
  exact (proj1 (proj1 (proj2 (proj2 annotations_two_sided_invariant))
                 (JNum 1) "obverse" (JNum 10) (JNum 20) JNull started_world ltac:(vm_compute; reflexivity))).
Defined.

(** ** Further properties of the manager *)

(** *** Adding annotations *)

Lemma mod6_nat n : Z.to_nat (Z.of_nat n mod 6) = Nat.modulo n 6.
Proof. rewrite <- (Nat2Z.id (n mod 6)), Nat2Z.inj_mod. reflexivity. Qed.

Lemma addAnnotation_run coinId side x y label w i cl al l :
  currentMode (mgr w) = "annotate" ->
  find_res (id_is coinId) (coins (mgr w)) 0 = Ok (Some (i, JObj cl)) ->
  assoc_get "annotations" cl = Some (JObj al) -> assoc_get side al = Some (JArr l) ->
  addAnnotation coinId side x y label w =
    (mkWorld (mkManager
       (replace_nth (coins (mgr w)) i
          (JObj (assoc_set "annotations"
                   (JObj (assoc_set side (JArr (l ++ [new_marker (mgr w) x y label (List.length l)])) al)) cl)))
       (currentMode (mgr w)) (nextCoinId (mgr w)) (nextAnnotationId (mgr w) + 1) JNull (expandedCoins (mgr w)))
       (ls w), Ok tt).
Proof.
  intros Hmode Hfind Ha Hs. destruct w as [[cs mode nc na q e] s]; simpl in *. subst mode.
  unfold addAnnotation, bind, get_mgr, put_mgr, set_coin, set_coins, lift, ret. simpl.
  rewrite Hfind. simpl. rewrite Ha. simpl. rewrite Hs. simpl.
  rewrite mod6_nat. reflexivity.
Qed.

(** X1: in 'annotate' mode, [addAnnotation] on a coin found by id appends one
    marker to the chosen side: its id is [nextAnnotationId], which goes up by
    one, its label is [label], else the quick annotation type, else 'New
    annotation', and its color the palette entry at the side's former length
    modulo 6; the quick annotation type is cleared and no other coin or side
    changes. In another mode, or for an id no coin has, nothing changes. *)
Theorem addAnnotation_appends_marker coinId side x y label w :
  (currentMode (mgr w) <> "annotate" -> addAnnotation coinId side x y label w = (w, Ok tt)) /\
  (find_res (id_is coinId) (coins (mgr w)) 0 = Ok None -> addAnnotation coinId side x y label w = (w, Ok tt)) /\
  (forall i cl al l,
     currentMode (mgr w) = "annotate" ->
     find_res (id_is coinId) (coins (mgr w)) 0 = Ok (Some (i, JObj cl)) ->
     assoc_get "annotations" cl = Some (JObj al) -> assoc_get side al = Some (JArr l) ->
     addAnnotation coinId side x y label w =
       (mkWorld (mkManager
          (replace_nth (coins (mgr w)) i
             (JObj (assoc_set "annotations"
                      (JObj (assoc_set side (JArr (l ++ [new_marker (mgr w) x y label (List.length l)])) al)) cl)))
          (currentMode (mgr w)) (nextCoinId (mgr w)) (nextAnnotationId (mgr w) + 1) JNull (expandedCoins (mgr w)))
          (ls w), Ok tt)).
Proof.
  split; [|split].
  - intros Hm. unfold addAnnotation, bind, get_mgr, ret.
    destruct (String.eqb (currentMode (mgr w)) "annotate") eqn:E; [apply String.eqb_eq in E; contradiction|].
    reflexivity.
  - intros Hf. unfold addAnnotation, bind, get_mgr, ret, lift.
    destruct (String.eqb (currentMode (mgr w)) "annotate"); simpl; [|reflexivity].
    rewrite Hf. reflexivity.
  - intros i cl al l. apply addAnnotation_run.
Qed.

Lemma addAnnotation_appends_marker_witness :
  exists w', addAnnotation (JNum 1) "obverse" (JNum 40) (JNum 60) JNull started_world = (w', Ok tt) /\
             annotation_ids (mgr w') = [JNum 1001; JNum 1002; JNum 1000; JNum 1003].
Proof.
  eexists. split.
  - eapply (proj2 (proj2 (addAnnotation_appends_marker (JNum 1) "obverse" (JNum 40) (JNum 60) JNull started_world)));
      reflexivity.
  - vm_compute. reflexivity.
Defined.

(** X2: choosing a quick annotation type [t] (truthy) and then clicking a side of
    a coin adds a marker labelled [t] at the click position, in 'annotate' mode,
    and clears the quick type, so the next click gets the default label. *)
Theorem quick_annotation_then_click t coinId side x y w i cl al l :
  truthy t = true ->
  find_res (id_is coinId) (coins (mgr w)) 0 = Ok (Some (i, JObj cl)) ->
  assoc_get "annotations" cl = Some (JObj al) -> assoc_get side al = Some (JArr l) ->
  (setQuickAnnotationType t ;;; handleImageClick coinId side x y) w =
    (mkWorld (mkManager
       (replace_nth (coins (mgr w)) i
          (JObj (assoc_set "annotations"
                   (JObj (assoc_set side
                            (JArr (l ++ [JObj [("id", JNum (nextAnnotationId (mgr w))); ("x", x); ("y", y);
                                               ("label", t); ("color", nth (Nat.modulo (List.length l) 6) colors JUndef)]]))
                            al)) cl)))
       "annotate" (nextCoinId (mgr w)) (nextAnnotationId (mgr w) + 1) JNull (expandedCoins (mgr w)))
       (ls w), Ok tt).
Proof.
  intros Ht Hf Ha Hs. destruct w as [[cs mode nc na q e] s]; simpl in *.
  set (w1 := mkWorld (mkManager cs "annotate" nc na t e) s).
  assert (Hrun : (setQuickAnnotationType t ;;; handleImageClick coinId side x y) (mkWorld (mkManager cs mode nc na q e) s)
                 = addAnnotation coinId side x y JNull w1) by reflexivity.
  rewrite Hrun. rewrite (addAnnotation_run coinId side x y JNull w1 i cl al l eq_refl Hf Ha Hs).
  unfold new_marker. cbn [mgr quickAnnotationType nextAnnotationId currentMode nextCoinId expandedCoins ls w1].
  replace (js_or (js_or JNull t) (JStr "New annotation")) with t; [reflexivity|].
  unfold js_or. simpl. rewrite Ht. reflexivity.
Qed.

Lemma quick_annotation_then_click_witness :
  exists w', (setQuickAnnotationType (JStr "Mint mark") ;;; handleImageClick (JNum 1) "reverse" (JNum 5) (JNum 7))
               started_world = (w', Ok tt) /\
             quickAnnotationType (mgr w') = JNull.
Proof.
  eexists. split.
  - eapply (quick_annotation_then_click (JStr "Mint mark") (JNum 1) "reverse" (JNum 5) (JNum 7) started_world);
      reflexivity.
  - reflexivity.
Defined.

(** *** Deleting coins *)

Lemma id_is_prop coinId c : nullish c = false -> id_is coinId c = Ok (strict_eq (prop c "id") coinId).
Proof. intros H. unfold id_is. rewrite (js_get_prop c "id" H). reflexivity. Qed.

Lemma find_res_none {A} (p : A -> res bool) l k :
  (forall x, In x l -> p x = Ok false) -> find_res p l k = Ok None.
Proof.
  revert k; induction l as [|x r IH]; intros k H; simpl; [reflexivity|].
  rewrite (H x (or_introl eq_refl)). simpl. apply IH. intros y Hy. apply H. right. exact Hy.
Qed.

(** X3: [deleteCoin] confirmed on a collection of coin objects keeps exactly the
    coins whose id is not [coinId], in their order; afterwards no coin has that
    id, so adding an annotation to it does nothing. Declining the dialog changes
    nothing. *)
Theorem deleteCoin_removes_coin coinId w :
  deleteCoin false coinId w = (w, Ok tt) /\
  (forallb (fun c => negb (nullish c)) (coins (mgr w)) = true ->
   let cs' := filter (fun c => negb (strict_eq (prop c "id") coinId)) (coins (mgr w)) in
   deleteCoin true coinId w = (mkWorld (set_coins (mgr w) cs') (ls w), Ok tt) /\
   find_res (id_is coinId) cs' 0 = Ok None /\
   (forall side x y label,
      (deleteCoin true coinId ;;; addAnnotation coinId side x y label) w = deleteCoin true coinId w)).
Proof.
  split; [reflexivity|]. intros Hnn cs'.
  assert (Hd : deleteCoin true coinId w = (mkWorld (set_coins (mgr w) cs') (ls w), Ok tt)).
  { unfold deleteCoin, bind, get_mgr, lift, put_mgr. simpl.
    rewrite (filter_res_pure _ (fun c => negb (strict_eq (prop c "id") coinId))); [reflexivity|].
    intros c Hc. rewrite forallb_forall in Hnn. specialize (Hnn c Hc). apply negb_true_iff in Hnn.
    rewrite id_is_prop by exact Hnn. reflexivity. }
  assert (Hn : find_res (id_is coinId) cs' 0 = Ok None).
  { apply find_res_none. intros c Hc. unfold cs' in Hc. apply filter_In in Hc as [Hc Hne].
    rewrite forallb_forall in Hnn. specialize (Hnn c Hc). apply negb_true_iff in Hnn.
    rewrite id_is_prop by exact Hnn. apply negb_true_iff in Hne. rewrite Hne. reflexivity. }
  split; [exact Hd|]. split; [exact Hn|].
  intros side x y label. unfold bind at 1. rewrite Hd.
  unfold addAnnotation, bind, get_mgr, ret, lift. cbn [mgr set_coins coins currentMode].
  destruct (String.eqb (currentMode (mgr w)) "annotate"); simpl; [|reflexivity].
  rewrite Hn. reflexivity.
Qed.

Lemma deleteCoin_removes_coin_witness :
  deleteCoin true (JNum 1) started_world = (mkWorld (set_coins (mgr started_world) []) (ls started_world), Ok tt).
Proof.
  exact (proj1 (proj2 (deleteCoin_removes_coin (JNum 1) started_world) ltac:(vm_compute; reflexivity))).
Defined.

(** *** Editing coin fields *)

Lemma assoc_get_set_other k k' v l : k <> k' -> assoc_get k (assoc_set k' v l) = assoc_get k l.
Proof.
  intros Hne. induction l as [|[k0 x] r IH]; simpl.
  - destruct (String.eqb k k') eqn:E; [apply String.eqb_eq in E; contradiction|reflexivity].
  - destruct (String.eqb k' k0) eqn:E0; simpl.
    + apply String.eqb_eq in E0. subst k0.
      destruct (String.eqb k k') eqn:E; [apply String.eqb_eq in E; contradiction|reflexivity].
    + destruct (String.eqb k k0); [reflexivity|exact IH].
Qed.

Lemma assoc_get_none_distinct k l :
  existsb (fun kv => String.eqb k (fst kv)) l = false -> assoc_get k l = None.
Proof.
  induction l as [|[k' x] r IH]; simpl; [reflexivity|].
  intros H. apply orb_false_iff in H as [H1 H2]. rewrite H1. exact (IH H2).
Qed.

Lemma assoc_get_assign k acc l :
  keys_distinct l = true ->
  assoc_get k (assign acc l) = match assoc_get k l with Some v => Some v | None => assoc_get k acc end.
Proof.
  revert acc; induction l as [|[k' v] r IH]; intros acc Hd; simpl; [reflexivity|].
  simpl in Hd. apply andb_prop in Hd as [Hn Hd]. apply negb_true_iff in Hn.
  rewrite IH by exact Hd.
  destruct (String.eqb k k') eqn:E.
  - apply String.eqb_eq in E. subst k'.
    rewrite (assoc_get_none_distinct k r Hn). apply assoc_get_set_same.
  - destruct (assoc_get k r); [reflexivity|].
    apply assoc_get_set_other. intros ->. rewrite String.eqb_refl in E. discriminate.
Qed.

Lemma find_res_lt {A} (p : A -> res bool) l k i x :
  find_res p l k = Ok (Some (i, x)) -> (k <= i < k + List.length l)%nat.
Proof.
  revert k; induction l as [|y r IH]; intros k H; simpl in H; [discriminate|].
  destruct (p y) as [b|e]; simpl in H; [|discriminate].
  destruct b; [injection H as <- <-; simpl; lia|].
  specialize (IH (S k) H). simpl. lia.
Qed.

Lemma nth_replace_nth_same (l : list jv) i x d : (i < List.length l)%nat -> nth i (replace_nth l i x) d = x.
Proof. revert i; induction l as [|y r IH]; intros [|i] H; simpl in *; try lia; auto. apply IH. lia. Qed.

Lemma nth_replace_nth_other (l : list jv) i j x d : i <> j -> nth j (replace_nth l i x) d = nth j l d.
Proof.
  revert i j; induction l as [|y r IH]; intros [|i] [|j] H; simpl; auto; try lia.
  all: apply IH; lia.
Qed.

Lemma replace_nth_length {A} (l : list A) i x : List.length (replace_nth l i x) = List.length l.
Proof. revert i; induction l as [|y r IH]; intros [|i]; simpl; auto. Qed.

(** X4: [updateCoinField(coinId, field, value)] on the coin found by id (an
    object without repeated keys) replaces it by a copy in which [field] ([fld]) reads
    [value], 'modified' reads the time stamp and every other key reads as
    before; the other coins do not change. For an id no coin has it does
    nothing. *)
Theorem updateCoinField_sets_field coinId fld value now w :
  (find_res (id_is coinId) (coins (mgr w)) 0 = Ok None -> updateCoinField coinId fld value now w = (w, Ok tt)) /\
  (forall i cl,
     find_res (id_is coinId) (coins (mgr w)) 0 = Ok (Some (i, JObj cl)) -> keys_distinct cl = true ->
     let w' := fst (updateCoinField coinId fld value now w) in
     let c' := nth i (coins (mgr w')) JUndef in
     snd (updateCoinField coinId fld value now w) = Ok tt /\
     List.length (coins (mgr w')) = List.length (coins (mgr w)) /\
     (forall j, j <> i -> nth j (coins (mgr w')) JUndef = nth j (coins (mgr w)) JUndef) /\
     prop c' "modified" = JStr now /\
     (fld <> "modified" -> prop c' fld = value) /\
     (forall k, k <> fld -> k <> "modified" -> prop c' k = field cl k)).
Proof.
  split.
  - intros H. unfold updateCoinField, updateCoin, bind, get_mgr, lift, ret. simpl. rewrite H. reflexivity.
  - intros i cl Hf Hd.
    assert (Hlt := find_res_lt _ _ _ _ _ Hf).
    set (c1 := JObj (assign (assign (assign [] cl) [(fld, value)]) [("modified", JStr now)])).
    assert (Hrun : updateCoinField coinId fld value now w =
                   (mkWorld (set_coins (mgr w) (replace_nth (coins (mgr w)) i c1)) (ls w), Ok tt)).
    { unfold updateCoinField, updateCoin, bind, get_mgr, lift, set_coin, put_mgr. simpl. rewrite Hf. reflexivity. }
    rewrite Hrun. cbn [fst snd mgr set_coins coins].
    rewrite nth_replace_nth_same by lia.
    assert (Hget : forall k, prop c1 k =
              match assoc_get k (assoc_set "modified" (JStr now) (assoc_set fld value (assign [] cl))) with
              | Some v => v | None => JUndef end) by reflexivity.
    split; [reflexivity|]. split; [apply replace_nth_length|].
    split; [intros j Hj; apply nth_replace_nth_other; lia|].
    split; [|split].
    + rewrite Hget, assoc_get_set_same. reflexivity.
    + intros Hne. rewrite Hget, assoc_get_set_other by exact Hne. rewrite assoc_get_set_same. reflexivity.
    + intros k Hk1 Hk2. rewrite Hget, assoc_get_set_other, assoc_get_set_other by assumption.
      rewrite assoc_get_assign by exact Hd. unfold field. destruct (assoc_get k cl); reflexivity.
Qed.

Lemma updateCoinField_sets_field_witness :
  prop (nth 0 (coins (mgr (fst (updateCoinField (JNum 1) "title" (JStr "Euro 2002") t_start started_world)))) JUndef) "title"
    = JStr "Euro 2002".
Proof.
  eapply (proj2 (updateCoinField_sets_field (JNum 1) "title" (JStr "Euro 2002") t_start started_world));
    [reflexivity|reflexivity|discriminate].
Defined.

Lemma find_coin_some coinId cs i c : find_coin coinId cs = Ok (Some (i, c)) -> (i < List.length cs)%nat.
Proof.
  unfold find_coin. destruct (find_res (id_is coinId) cs 0) as [[[j d]|]|e] eqn:E; simpl; try discriminate.
  destruct (truthy d); intros H; [|discriminate]. injection H as <- <-.
  apply find_res_lt in E. lia.
Qed.

(** X5: the handlers [updateCoinMetadata], [updateCoinCondition] and
    [updateCoinValuation] ([sec] = metadata, condition, valuation) set
    [coin[sec][fld]] in place on the coin found by id: the section keeps its
    place in the coin, the key reads [value] afterwards and nothing else
    changes. When the coin has no such section they throw a TypeError with the
    state unchanged (so no save happens); for an id no coin has they do nothing. *)
Theorem update_coin_section_sets sec coinId fld value w :
  (find_coin coinId (coins (mgr w)) = Ok None -> update_coin_section sec coinId fld value w = (w, Ok tt)) /\
  (forall i cl,
     find_coin coinId (coins (mgr w)) = Ok (Some (i, JObj cl)) ->
     (assoc_get sec cl = None -> update_coin_section sec coinId fld value w = (w, Throw TypeError)) /\
     (forall sl, assoc_get sec cl = Some (JObj sl) ->
        update_coin_section sec coinId fld value w =
          (mkWorld (set_coins (mgr w) (replace_nth (coins (mgr w)) i
                      (JObj (assoc_set sec (JObj (assoc_set fld value sl)) cl)))) (ls w), Ok tt) /\
        prop (prop (nth i (coins (mgr (fst (update_coin_section sec coinId fld value w)))) JUndef) sec) fld = value)).
Proof.
  split.
  - intros H. unfold update_coin_section, bind, get_mgr, lift, ret. simpl. rewrite H. reflexivity.
  - intros i cl Hf. split.
    + intros Hs. unfold update_coin_section, bind, get_mgr, lift, ret. simpl. rewrite Hf. simpl. rewrite Hs. reflexivity.
    + intros sl Hs.
      assert (Hrun : update_coin_section sec coinId fld value w =
                (mkWorld (set_coins (mgr w) (replace_nth (coins (mgr w)) i
                      (JObj (assoc_set sec (JObj (assoc_set fld value sl)) cl)))) (ls w), Ok tt)).
      { unfold update_coin_section, bind, get_mgr, lift, set_coin, put_mgr. simpl. rewrite Hf. simpl. rewrite Hs. reflexivity. }
      split; [exact Hrun|]. rewrite Hrun. cbn [fst mgr set_coins coins].
      rewrite nth_replace_nth_same by exact (find_coin_some _ _ _ _ Hf).
      unfold prop. simpl. rewrite assoc_get_set_same. simpl. rewrite assoc_get_set_same. reflexivity.
Qed.

Lemma update_coin_section_sets_witness :
  prop (prop (nth 0 (coins (mgr (fst (updateCoinMetadata (JNum 1) "country" (JStr "France") started_world)))) JUndef)
             "metadata") "country" = JStr "France".
Proof.
  eapply (proj2 (proj2 (update_coin_section_sets "metadata" (JNum 1) "country" (JStr "France") started_world) 0%nat _ eq_refl) _ eq_refl).
Defined.

(** *** Expanding coins *)













(** *** Removing and editing media items *)

Lemma replace_nth_twice {A} (l : list A) i x y : replace_nth (replace_nth l i x) i y = replace_nth l i y.
Proof. revert i; induction l as [|z r IH]; intros [|i]; simpl; f_equal; auto. Qed.

Lemma filter_out_id_pure mediaId l :
  forallb (fun x => negb (nullish x)) l = true ->
  filter_out_id mediaId (JArr l) = Ok (JArr (keep_other_ids mediaId l)).
Proof.
  intros H. unfold filter_out_id. rewrite (filter_res_pure _ (fun x => negb (strict_eq (prop x "id") mediaId))); [reflexivity|].
  intros x Hx. rewrite forallb_forall in H. specialize (H x Hx). apply negb_true_iff in H.
  rewrite id_is_prop by exact H. reflexivity.
Qed.

(** X7: [removeMedia(coinId, mediaId)] on a coin whose media holds arrays of
    items drops from [media.images] and from [media.videos] exactly the items
    whose id is [mediaId], keeping the others in order, so no item with that id
    is left; no other coin changes. If [media.videos] is not an array, the
    images are filtered and then it throws a TypeError. *)
Theorem removeMedia_filters coinId mediaId w i cl ml li :
  find_coin coinId (coins (mgr w)) = Ok (Some (i, JObj cl)) ->
  assoc_get "media" cl = Some (JObj ml) -> assoc_get "images" ml = Some (JArr li) ->
  forallb (fun x => negb (nullish x)) li = true ->
  let ml1 := assoc_set "images" (JArr (keep_other_ids mediaId li)) ml in
  (forall lv, assoc_get "videos" ml = Some (JArr lv) -> forallb (fun x => negb (nullish x)) lv = true ->
     removeMedia coinId mediaId w =
       (mkWorld (set_coins (mgr w) (replace_nth (coins (mgr w)) i
          (JObj (assoc_set "media" (JObj (assoc_set "videos" (JArr (keep_other_ids mediaId lv)) ml1)) cl)))) (ls w), Ok tt) /\
     (forall x, In x (keep_other_ids mediaId li ++ keep_other_ids mediaId lv) -> strict_eq (prop x "id") mediaId = false)) /\
  (match assoc_get "videos" ml with Some (JArr _) => False | _ => True end ->
     removeMedia coinId mediaId w =
       (mkWorld (set_coins (mgr w) (replace_nth (coins (mgr w)) i (JObj (assoc_set "media" (JObj ml1) cl)))) (ls w),
        Throw TypeError)).
Proof.
  intros Hf Hm Hi Hli ml1.
  assert (Hv1 : assoc_get "videos" ml1 = assoc_get "videos" ml) by (apply assoc_get_set_other; discriminate).
  split.
  - intros lv Hv Hlv. split.
    + unfold removeMedia, bind, get_mgr, lift, set_coin, put_mgr, ret. simpl.
      rewrite Hf. simpl. rewrite Hm. simpl. rewrite Hi. simpl. rewrite filter_out_id_pure by exact Hli. simpl.
      fold ml1. rewrite Hv1, Hv. simpl. rewrite filter_out_id_pure by exact Hlv. simpl.
      unfold bind, get_mgr. simpl. rewrite assoc_set_set, replace_nth_twice. reflexivity.
    + intros x Hx. apply in_app_or in Hx as [Hx|Hx]; unfold keep_other_ids in Hx;
        apply filter_In in Hx as [_ Hx]; apply negb_true_iff in Hx; exact Hx.
  - intros Hv. unfold removeMedia, bind, get_mgr, lift, set_coin, put_mgr, ret. simpl.
    rewrite Hf. simpl. rewrite Hm. simpl. rewrite Hi. simpl. rewrite filter_out_id_pure by exact Hli. simpl.
    fold ml1. rewrite Hv1.
    destruct (assoc_get "videos" ml) as [v|]; [destruct v; try contradiction; reflexivity|reflexivity].
Qed.

Lemma removeMedia_filters_witness :
  let coin := JObj [("id", JNum 7); ("media", JObj [("images", JArr [media_a; media_c]); ("videos", JArr [media_b])])] in
  removeMedia (JNum 7) (JNum 1) (mkWorld (set_coins manager0 [coin]) []) =
    (mkWorld (set_coins (set_coins manager0 [coin])
       [JObj [("id", JNum 7); ("media", JObj [("images", JArr [media_c]); ("videos", JArr [media_b])])]]) [], Ok tt).
Proof.
  intros coin.
  exact (proj1 (proj1 (removeMedia_filters (JNum 7) (JNum 1) (mkWorld (set_coins manager0 [coin]) []) 0
                 [("id", JNum 7); ("media", JObj [("images", JArr [media_a; media_c]); ("videos", JArr [media_b])])]
                 [("images", JArr [media_a; media_c]); ("videos", JArr [media_b])] [media_a; media_c]
                 eq_refl eq_refl eq_refl eq_refl) [media_b] eq_refl eq_refl)).
Defined.

Lemma assoc_set_same_value k v l : assoc_get k l = Some v -> assoc_set k v l = l.
Proof.
  induction l as [|[k' x] r IH]; simpl; [discriminate|].
  destruct (String.eqb k k') eqn:E; intros H.
  - injection H as ->. apply String.eqb_eq in E. subst. reflexivity.
  - rewrite IH by exact H. reflexivity.
Qed.

Lemma replace_nth_app {A} (l1 l2 : list A) j x :
  replace_nth (l1 ++ l2) j x =
  if Nat.ltb j (List.length l1) then (replace_nth l1 j x ++ l2)%list
  else (l1 ++ replace_nth l2 (j - List.length l1) x)%list.
Proof.
  revert j; induction l1 as [|y r IH]; intros [|j]; simpl; try reflexivity.
  rewrite IH. destruct (Nat.ltb j (List.length r)) eqn:E;
    replace (Nat.ltb (S j) (S (List.length r))) with (Nat.ltb j (List.length r)) by reflexivity;
    rewrite E; reflexivity.
Qed.

(** X8: [updateMediaTitle] and [updateMediaDescription] ([key] = title,
    description) write [value] into the first item, over [media.images]
    followed by [media.videos], whose id is [mediaId]: the list [allMedia] they
    search holds the items themselves, so the change lands in the coin's
    images or videos, the two arrays keep their lengths and every other item
    is unchanged (a later item with the same id is not touched). With no item of
    that id nothing changes. *)
Theorem update_media_field_first_match key coinId mediaId value w i cl ml li lv :
  find_coin coinId (coins (mgr w)) = Ok (Some (i, JObj cl)) ->
  assoc_get "media" cl = Some (JObj ml) ->
  assoc_get "images" ml = Some (JArr li) -> assoc_get "videos" ml = Some (JArr lv) ->
  forallb (fun x => negb (nullish x)) (li ++ lv) = true ->
  (find_res (id_is mediaId) (li ++ lv) 0 = Ok None -> update_media_field key coinId mediaId value w = (w, Ok tt)) /\
  (forall j il, find_res (id_is mediaId) (li ++ lv) 0 = Ok (Some (j, JObj il)) ->
     exists li' lv',
       update_media_field key coinId mediaId value w =
         (mkWorld (set_coins (mgr w) (replace_nth (coins (mgr w)) i
            (JObj (assoc_set "media" (JObj (assoc_set "videos" (JArr lv') (assoc_set "images" (JArr li') ml))) cl))))
            (ls w), Ok tt) /\
       List.length li' = List.length li /\
       (li' ++ lv')%list = replace_nth (li ++ lv) j (JObj (assoc_set key value il))).
Proof.
  intros Hf Hm Hi Hv Hnn. split.
  - intros Hn. unfold update_media_field, bind, get_mgr, lift, ret. simpl.
    rewrite Hf. simpl. rewrite Hm. simpl. rewrite Hi. simpl. rewrite Hv. simpl. rewrite Hn. reflexivity.
  - intros j il Hj.
    assert (Hrun : update_media_field key coinId mediaId value w =
      if Nat.ltb j (List.length li) then
        (mkWorld (set_coins (mgr w) (replace_nth (coins (mgr w)) i
           (JObj (assoc_set "media" (JObj (assoc_set "images" (JArr (replace_nth li j (JObj (assoc_set key value il)))) ml)) cl))))
           (ls w), Ok tt)
      else
        (mkWorld (set_coins (mgr w) (replace_nth (coins (mgr w)) i
           (JObj (assoc_set "media" (JObj (assoc_set "videos"
              (JArr (replace_nth lv (j - List.length li) (JObj (assoc_set key value il)))) ml)) cl))))
           (ls w), Ok tt)).
    { unfold update_media_field, bind, get_mgr, lift, ret, set_coin, put_mgr. simpl.
      rewrite Hf. simpl. rewrite Hm. simpl. rewrite Hi. simpl. rewrite Hv. simpl. rewrite Hj. simpl.
      destruct (Nat.ltb j (List.length li)); reflexivity. }
    rewrite Hrun. rewrite replace_nth_app.
    destruct (Nat.ltb j (List.length li)) eqn:Ej.
    + exists (replace_nth li j (JObj (assoc_set key value il))), lv.
      rewrite (assoc_set_same_value "videos" (JArr lv)).
      * split; [reflexivity|]. split; [apply replace_nth_length|reflexivity].
      * rewrite assoc_get_set_other by discriminate. exact Hv.
    + exists li, (replace_nth lv (j - List.length li) (JObj (assoc_set key value il))).
      rewrite (assoc_set_same_value "images" (JArr li) ml Hi).
      split; [reflexivity|]. split; reflexivity.
Qed.

Lemma update_media_field_first_match_witness :
  let coin := JObj [("id", JNum 7); ("media", JObj [("images", JArr [media_a; media_c]); ("videos", JArr [media_b])])] in
  exists li' lv',
    updateMediaTitle (JNum 7) (JNum 2) (JStr "Edge view") (mkWorld (set_coins manager0 [coin]) []) =
      (mkWorld (set_coins (set_coins manager0 [coin]) [JObj [("id", JNum 7);
         ("media", JObj (assoc_set "videos" (JArr lv') (assoc_set "images" (JArr li')
                           [("images", JArr [media_a; media_c]); ("videos", JArr [media_b])])))]]) [], Ok tt) /\
    List.length li' = 2%nat /\
    (li' ++ lv')%list = [media_a; media_c; JObj [("id", JNum 2); ("type", JStr "video"); ("tags", JArr []);
                                               ("source", JStr "ai"); ("title", JStr "Edge view")]].
Proof.
  intros coin.
  exact (proj2 (update_media_field_first_match "title" (JNum 7) (JNum 2) (JStr "Edge view")
                 (mkWorld (set_coins manager0 [coin]) []) 0
                 [("id", JNum 7); ("media", JObj [("images", JArr [media_a; media_c]); ("videos", JArr [media_b])])]
                 [("images", JArr [media_a; media_c]); ("videos", JArr [media_b])] [media_a; media_c] [media_b]
                 eq_refl eq_refl eq_refl eq_refl eq_refl) 2%nat
                 [("id", JNum 2); ("type", JStr "video"); ("tags", JArr []); ("source", JStr "ai")] eq_refl).
Defined.

Lemma rbind_ok {A B} (r : res A) (k : A -> res B) y : rbind r k = Ok y -> exists x, r = Ok x /\ k x = Ok y.
Proof. destruct r; simpl; [eauto | discriminate]. Qed.

Lemma map_res_length {A B} (f : A -> res B) l l' : map_res f l = Ok l' -> List.length l' = List.length l.
Proof.
  revert l'; induction l as [|x r IH]; simpl; intros l' H.
  - injection H as <-. reflexivity.
  - apply rbind_ok in H as [y [_ H]]. apply rbind_ok in H as [r' [Hr H]].
    injection H as <-. simpl. rewrite (IH _ Hr). reflexivity.
Qed.

Lemma map_res_Forall {A B} (f : A -> res B) (P : B -> Prop) l l' :
  (forall x y, f x = Ok y -> P y) -> map_res f l = Ok l' -> Forall P l'.
Proof.
  intros HP; revert l'; induction l as [|x r IH]; simpl; intros l' H.
  - injection H as <-. constructor.
  - apply rbind_ok in H as [y [Hy H]]. apply rbind_ok in H as [r' [Hr H]].
    injection H as <-. constructor; [exact (HP _ _ Hy) | exact (IH _ Hr)].
Qed.

Lemma count_nl_app a b : count_nl (a ++ b) = (count_nl a + count_nl b)%nat.
Proof. induction a as [|c a IH]; simpl; [reflexivity | rewrite IH; lia]. Qed.

Lemma count_nl_join sep l :
  count_nl (join sep l) = (Nat.pred (List.length l) * count_nl sep + fold_right (fun x n => count_nl x + n) 0 l)%nat.
Proof.
  induction l as [|x r IH]; [reflexivity|].
  destruct r as [|y r']; [simpl; lia|].
  change (join sep (x :: y :: r')) with (x ++ sep ++ join sep (y :: r')).
  rewrite !count_nl_app, IH. simpl. nia.
Qed.

Lemma count_nl_replace_newlines s : count_nl (replace_newlines s) = 0%nat.
Proof.
  induction s as [|c s IH]; [reflexivity|]. simpl.
  destruct (Ascii.eqb c nl) eqn:E; simpl; [exact IH | rewrite E; exact IH].
Qed.

Lemma count_nl_csv_line row :
  count_nl (csv_line row) = fold_right (fun c m => (count_nl (to_string c) + m)%nat) 0%nat row.
Proof.
  unfold csv_line. rewrite count_nl_join.
  replace (count_nl ",") with 0%nat by reflexivity. rewrite Nat.mul_0_r. simpl.
  induction row as [|c r IH]; [reflexivity|]. simpl. rewrite IH.
  unfold csv_cell. simpl. rewrite count_nl_app. simpl. lia.
Qed.

Lemma csv_row_notes_no_nl coin r : csv_row coin = Ok r -> count_nl (to_string (nth 8 r JUndef)) = 0%nat.
Proof.
  unfold csv_row. intros H.
  repeat (apply rbind_ok in H; destruct H as [? [? H]]).
  injection H as <-. simpl nth.
  match goal with Hn : rbind (js_get _ "notes") opt_replace_newlines = Ok _ |- _ =>
    rename Hn into Hnotes end.
  apply rbind_ok in Hnotes as [z [_ Hnotes]].
  destruct z; simpl in Hnotes; try discriminate; injection Hnotes as <-; try reflexivity.
  unfold js_or. destruct (truthy _); [apply count_nl_replace_newlines | reflexivity].
Qed.

(** X9: [convertToCSV] writes one line per record after the header line: the
    line feeds of its text are the [data.length] separators of [join('\n')]
    and those inside the cells' own text; the Notes cell never holds one,
    since [notes.replace(/\n/g, ' ')] removes them. *)
Theorem convertToCSV_line_count data s :
  convertToCSV data = Ok s ->
  exists rows, map_res csv_row data = Ok rows /\ 
    List.length rows = List.length data /\ 
    count_nl s = (List.length data + fold_right (fun r n => fold_right (fun c m => count_nl (to_string c) + m) 0 r + n) 0 rows)%nat /\ 
    Forall (fun r => count_nl (to_string (nth 8 r JUndef)) = 0%nat) rows.
Proof.
  unfold convertToCSV. intros H. apply rbind_ok in H as [rows [Hrows H]].
  assert (Hs : s = join (String nl EmptyString) (map csv_line (map JStr csv_headers :: rows))) by congruence.
  clear H. subst s.
  exists rows. split; [exact Hrows|].
  pose proof (map_res_length _ _ _ Hrows) as Hlen. split; [exact Hlen|]. split.
  - rewrite count_nl_join. simpl List.length. rewrite length_map, Hlen.
    replace (count_nl (String nl EmptyString)) with 1%nat by reflexivity.
    change (map csv_line (map JStr csv_headers :: rows)) with (csv_line (map JStr csv_headers) :: map csv_line rows).
    cbn [fold_right]. replace (count_nl (csv_line (map JStr csv_headers))) with 0%nat by reflexivity.
    enough (E : fold_right (fun x n => (count_nl x + n)%nat) 0%nat (map csv_line rows) =
                fold_right (fun r n => (fold_right (fun c m => count_nl (to_string c) + m) 0 r + n)%nat) 0%nat rows)
      by (simpl Nat.pred; lia).
    clear. induction rows as [|r rs IH]; [reflexivity|]. simpl. rewrite count_nl_csv_line, IH. reflexivity.
  - exact (map_res_Forall _ _ _ _ csv_row_notes_no_nl Hrows).
Qed.

Lemma convertToCSV_line_count_witness :
  let c := JObj [("id", JNum 3); ("title", JStr "Cent");
                 ("metadata", JObj [("country", JStr "US"); ("year", JNum 1909); ("denomination", JStr "1c");
                                    ("metal", JStr "Bronze")]);
                 ("condition", JObj [("grade", JStr "VF")]);
                 ("valuation", JObj [("currentEstimate", JNum 12)]);
                 ("notes", JStr (String "a" (String nl (String "b" EmptyString))))] in
  let s := match convertToCSV [c] with Ok s => s | Throw _ => EmptyString end in
  convertToCSV [c] = Ok s /\ count_nl s = 1%nat /\
  exists rows, map_res csv_row [c] = Ok rows /\
    List.length rows = List.length [c] /\
    count_nl s = (List.length [c] + fold_right (fun r n => fold_right (fun c m => count_nl (to_string c) + m) 0 r + n) 0 rows)%nat /\
    Forall (fun r => count_nl (to_string (nth 8 r JUndef)) = 0%nat) rows.
Proof.
  intros c s. split; [reflexivity|]. split; [reflexivity|].
  apply convertToCSV_line_count. reflexivity.
Defined.

Lemma export_coin_ok iI iA iV iN coin :
  nullish coin = false ->
  export_coin iI iA iV iN coin = Ok (JObj (map (fun k => (k, prop coin k)) (export_keys iI iA iV iN))).
Proof.
  intros H. unfold export_coin, opt_field, read_fields, export_base_keys, export_keys.
  rewrite !(fun k => js_get_prop coin k H). simpl.
  destruct iI, iA, iV, iN; reflexivity.
Qed.

(** X10: [exportCollection] maps every coin to a fresh record with exactly the
    keys id, title, description, metadata, condition, created, modified, then
    images, annotations, valuation and notes for the options checked, each
    holding the coin's own value (undefined when the coin lacks it); the coins
    keep their order. A null or undefined entry of [coins] makes it throw. *)
Theorem exportCollection_records iI iA iV iN m :
  (forallb (fun c => negb (nullish c)) (coins m) = true ->
   exportCollection iI iA iV iN m =
     Ok (map (fun c => JObj (map (fun k => (k, prop c k)) (export_keys iI iA iV iN))) (coins m))) /\
  (forall c, In c (coins m) -> nullish c = true -> exists e, exportCollection iI iA iV iN m = Throw e).
Proof.
  unfold exportCollection. split.
  - induction (coins m) as [|c cs IH]; simpl; [reflexivity|].
    intros H. apply andb_prop in H as [Hc Hcs]. apply negb_true_iff in Hc.
    rewrite (export_coin_ok _ _ _ _ _ Hc). simpl. rewrite (IH Hcs). reflexivity.
  - induction (coins m) as [|c' cs IH]; simpl; [tauto|].
    intros c [-> | Hin] Hn.
    + unfold export_coin, read_fields. destruct c; try discriminate; simpl; eauto.
    + destruct (export_coin iI iA iV iN c'); simpl; [|eauto].
      destruct (IH c Hin Hn) as [e ->]. simpl. eauto.
Qed.

Lemma exportCollection_records_witness :
  let c := JObj [("id", JNum 1); ("title", JStr "Cent"); ("notes", JStr "n"); ("images", JObj [])] in
  exportCollection false false false true (set_coins manager0 [c]) =
    Ok [JObj [("id", JNum 1); ("title", JStr "Cent"); ("description", JUndef); ("metadata", JUndef);
              ("condition", JUndef); ("created", JUndef); ("modified", JUndef); ("notes", JStr "n")]].
Proof.
  intros c. exact (proj1 (exportCollection_records false false false true (set_coins manager0 [c])) eq_refl).
Defined.

(** X11: [deleteImage] asks for confirmation and does nothing when it is
    refused. Confirmed, on a coin whose [images] is an object and whose
    [aiAnalysis] is absent or an object, it writes null into [images[side]]
    and leaves the coin's analysis of that side falsy; the other image sides
    and the coin's other keys keep their values, and only that coin changes. *)
Theorem deleteImage_clears_side coinId side w i cl il :
  find_coin coinId (coins (mgr w)) = Ok (Some (i, JObj cl)) ->
  assoc_get "images" cl = Some (JObj il) ->
  nullish (field cl "aiAnalysis") = true \/ (exists al, field cl "aiAnalysis" = JObj al) ->
  deleteImage false coinId side w = (w, Ok tt) /\
  exists cl',
    deleteImage true coinId side w =
      (mkWorld (set_coins (mgr w) (replace_nth (coins (mgr w)) i (JObj cl'))) (ls w), Ok tt) /\
    prop (field cl' "images") side = JNull /\
    truthy (prop (field cl' "aiAnalysis") side) = false /\
    (forall s, s <> side -> prop (field cl' "images") s = field il s) /\
    (forall k, k <> "images" -> k <> "aiAnalysis" -> assoc_get k cl' = assoc_get k cl).
Proof.
  intros Hf Hi Hai. split; [reflexivity|].
  set (cl1 := assoc_set "images" (JObj (assoc_set side JNull il)) cl).
  assert (Himg1 : field cl1 "images" = JObj (assoc_set side JNull il))
    by (unfold field, cl1; rewrite assoc_get_set_same; reflexivity).
  assert (Hai1 : field cl1 "aiAnalysis" = field cl "aiAnalysis")
    by (unfold field, cl1; rewrite assoc_get_set_other by discriminate; reflexivity).
  assert (Hside : prop (JObj (assoc_set side JNull il)) side = JNull)
    by (unfold prop; simpl; rewrite assoc_get_set_same; reflexivity).
  assert (Hother : forall s, s <> side -> prop (JObj (assoc_set side JNull il)) s = field il s)
    by (intros s Hs; unfold prop, field; simpl; rewrite assoc_get_set_other by exact Hs; reflexivity).
  assert (Hrest1 : forall k, k <> "images" -> assoc_get k cl1 = assoc_get k cl)
    by (intros k Hk; unfold cl1; apply assoc_get_set_other; exact Hk).
  destruct Hai as [Hn | [al Hal]].
  - exists cl1. split.
    + unfold deleteImage, bind, get_mgr, lift, set_coin, put_mgr, ret. simpl.
      rewrite Hf. simpl. rewrite Hi. simpl. fold cl1.
      change (match assoc_get "aiAnalysis" cl1 with Some v => v | None => JUndef end) with (field cl1 "aiAnalysis").
      rewrite Hai1. destruct (field cl "aiAnalysis"); try discriminate; reflexivity.
    + rewrite Himg1, Hai1. split; [exact Hside|]. split.
      * destruct (field cl "aiAnalysis"); try discriminate; reflexivity.
      * split; [exact Hother|]. intros k Hk _. exact (Hrest1 k Hk).
  - destruct (truthy (field al side)) eqn:Ht.
    + exists (assoc_set "aiAnalysis" (JObj (assoc_set side JNull al)) cl1). split.
      * unfold deleteImage, bind, get_mgr, lift, set_coin, put_mgr, ret. simpl.
        rewrite Hf. simpl. rewrite Hi. simpl. fold cl1.
        change (match assoc_get "aiAnalysis" cl1 with Some v => v | None => JUndef end) with (field cl1 "aiAnalysis").
        rewrite Hai1, Hal. simpl.
        change (match assoc_get side al with Some v => v | None => JUndef end) with (field al side).
        rewrite Ht. simpl. unfold bind, get_mgr. simpl. rewrite replace_nth_twice. reflexivity.
      * assert (Himg2 : field (assoc_set "aiAnalysis" (JObj (assoc_set side JNull al)) cl1) "images" = field cl1 "images")
          by (unfold field; rewrite assoc_get_set_other by discriminate; reflexivity).
        assert (Hai2 : field (assoc_set "aiAnalysis" (JObj (assoc_set side JNull al)) cl1) "aiAnalysis" =
                       JObj (assoc_set side JNull al))
          by (unfold field; rewrite assoc_get_set_same; reflexivity).
        rewrite Himg2, Hai2, Himg1. split; [exact Hside|]. split.
        { unfold prop. simpl. rewrite assoc_get_set_same. reflexivity. }
        split; [exact Hother|]. intros k Hk Hk'.
        rewrite assoc_get_set_other by exact Hk'. exact (Hrest1 k Hk).
    + exists cl1. split.
      * unfold deleteImage, bind, get_mgr, lift, set_coin, put_mgr, ret. simpl.
        rewrite Hf. simpl. rewrite Hi. simpl. fold cl1.
        change (match assoc_get "aiAnalysis" cl1 with Some v => v | None => JUndef end) with (field cl1 "aiAnalysis").
        rewrite Hai1, Hal. simpl.
        change (match assoc_get side al with Some v => v | None => JUndef end) with (field al side).
        rewrite Ht. reflexivity.
      * rewrite Himg1, Hai1, Hal. split; [exact Hside|]. split.
        { unfold prop. simpl. fold (field al side). exact Ht. }
        split; [exact Hother|]. intros k Hk _. exact (Hrest1 k Hk).
Qed.

Lemma deleteImage_clears_side_witness :
  let il := [("obverse", JStr "o.jpg"); ("reverse", JStr "r.jpg")] in
  let cl := [("id", JNum 5); ("images", JObj il); ("aiAnalysis", JObj [("obverse", JStr "VF-30")])] in
  let w := mkWorld (set_coins manager0 [JObj cl]) [] in
  deleteImage false (JNum 5) "obverse" w = (w, Ok tt) /\
  exists cl',
    deleteImage true (JNum 5) "obverse" w =
      (mkWorld (set_coins (mgr w) (replace_nth (coins (mgr w)) 0 (JObj cl'))) (ls w), Ok tt) /\
    prop (field cl' "images") "obverse" = JNull /\
    truthy (prop (field cl' "aiAnalysis") "obverse") = false /\
    (forall s, s <> "obverse" -> prop (field cl' "images") s = field il s) /\
    (forall k, k <> "images" -> k <> "aiAnalysis" -> assoc_get k cl' = assoc_get k cl).
Proof.
  intros il cl w.
  apply (deleteImage_clears_side (JNum 5) "obverse" w 0 cl il); [reflexivity | reflexivity |].
  right. eexists. reflexivity.
Defined.

(** *** Removing annotations *)

Lemma marker_shaped_not_nullish l : forallb marker_shaped l = true -> forallb (fun x => negb (nullish x)) l = true.
Proof.
  induction l as [|x r IH]; simpl; [reflexivity|].
  intros H. apply andb_prop in H as [Hx Hr]. rewrite IH by exact Hr.
  destruct x; try discriminate Hx; reflexivity.
Qed.

Lemma filter_res_keep_other_ids annotationId l :
  forallb (fun x => negb (nullish x)) l = true ->
  filter_res (fun a => rbind (id_is annotationId a) (fun b => Ok (negb b))) l = Ok (keep_other_ids annotationId l).
Proof.
  intros H. unfold keep_other_ids. apply filter_res_pure.
  intros x Hx. rewrite forallb_forall in H. specialize (H x Hx). apply negb_true_iff in H.
  rewrite id_is_prop by exact H. reflexivity.
Qed.

Lemma nth_app_length (pre post : list jv) x : nth (List.length pre) (pre ++ x :: post) JUndef = x.
Proof. rewrite app_nth2 by lia. rewrite Nat.sub_diag. reflexivity. Qed.

Lemma replace_nth_app_length {A} (pre post : list A) x y :
  replace_nth (pre ++ x :: post) (List.length pre) y = (pre ++ y :: post)%list.
Proof.
  rewrite replace_nth_app. rewrite Nat.ltb_irrefl, Nat.sub_diag. reflexivity.
Qed.

(** One coin of [removeAnnotation]: its two sides, one after the other. *)
Lemma remove_sides_step annotationId m l k :
  two_sided (nth k (coins m) JUndef) = true ->
  forEach_side sides (remove_side annotationId k) (mkWorld m l) =
    (mkWorld (set_coins m (replace_nth (coins m) k (remove_from_coin annotationId (nth k (coins m) JUndef)))) l, Ok tt).
Proof.
  intros H. destruct (two_sided_inv _ H) as [cl [o [r [Hc [Hann [Ho Hr]]]]]]. rewrite Hc.
  apply marker_shaped_not_nullish in Ho, Hr.
  unfold sides, forEach_side, remove_side, bind, coin_at, get_mgr, ret, lift, set_coin, put_mgr. simpl.
  rewrite Hc. simpl. rewrite Hann. simpl. rewrite filter_res_keep_other_ids by exact Ho. simpl.
  assert (Hk : (k < List.length (coins m))%nat).
  { destruct (Nat.lt_ge_cases k (List.length (coins m))) as [Hk|Hk]; [exact Hk|].
    rewrite nth_overflow in Hc by exact Hk. discriminate Hc. }
  rewrite nth_replace_nth_same by exact Hk. simpl. rewrite assoc_get_set_same. simpl.
  rewrite filter_res_keep_other_ids by exact Hr. simpl.
  unfold bind, get_mgr. simpl. rewrite replace_nth_twice, assoc_set_set. reflexivity.
Qed.

Lemma set_coins_set_coins m a b : set_coins (set_coins m a) b = set_coins m b.
Proof. reflexivity. Qed.

(** [loop_from] over coins whose body rewrites coin [k] only, by [g]. *)
Lemma loop_from_map (body : nat -> M unit) (g : jv -> jv) (P : jv -> bool) :
  (forall m l k, P (nth k (coins m) JUndef) = true ->
     body k (mkWorld m l) = (mkWorld (set_coins m (replace_nth (coins m) k (g (nth k (coins m) JUndef)))) l, Ok tt)) ->
  forall post pre m l, forallb P post = true ->
    loop_from (List.length pre) (List.length post) body (mkWorld (set_coins m (pre ++ post)) l) =
      (mkWorld (set_coins m (pre ++ map g post)) l, Ok tt).
Proof.
  intros Hb. induction post as [|x post IH]; intros pre m l Hp; [reflexivity|].
  simpl in Hp. apply andb_prop in Hp as [Hx Hp].
  cbn [List.length loop_from]. unfold bind.
  rewrite Hb by (simpl; rewrite nth_app_length; exact Hx).
  simpl coins. rewrite nth_app_length, replace_nth_app_length.
  replace (S (List.length pre)) with (List.length (pre ++ [g x])) by (rewrite length_app; simpl; lia).
  replace (pre ++ g x :: post)%list with ((pre ++ [g x]) ++ post)%list by (rewrite <- app_assoc; reflexivity).
  specialize (IH (pre ++ [g x])%list m l Hp). rewrite set_coins_set_coins, IH.
  rewrite <- app_assoc. reflexivity.
Qed.

Lemma map_id_keep_other_ids x l :
  map (fun a => prop a "id") (keep_other_ids x l) = filter (fun v => negb (strict_eq v x)) (map (fun a => prop a "id") l).
Proof.
  unfold keep_other_ids. induction l as [|y r IH]; simpl; [reflexivity|].
  destruct (strict_eq (prop y "id") x); simpl; rewrite IH; reflexivity.
Qed.

Lemma annotation_ids_remove annotationId m cs :
  forallb two_sided cs = true ->
  annotation_ids (set_coins m (map (remove_from_coin annotationId) cs)) =
    filter (fun v => negb (strict_eq v annotationId)) (annotation_ids (set_coins m cs)).
Proof.
  unfold annotation_ids. simpl. induction cs as [|c cs IH]; intros H; [reflexivity|].
  simpl in H. apply andb_prop in H as [Hc H].
  cbn [map flat_map]. rewrite filter_app, IH by exact H. f_equal.
  destruct (two_sided_inv _ Hc) as [cl [o [r [-> [Hann _]]]]].
  simpl. rewrite Hann. simpl. rewrite assoc_get_set_same. simpl.
  rewrite !app_nil_r, filter_app.
  change (fun a => match js_get a "id" with Ok v => v | Throw _ => JUndef end) with (fun a => prop a "id").
  rewrite !map_id_keep_other_ids. reflexivity.
Qed.

(** X12: on coins whose annotations hold the two arrays of markers (the
    invariant of claim C4), [removeAnnotation(annotationId)] filters both
    sides of every coin and does nothing else: the annotation ids of the
    collection afterwards are those before, in order, without every
    occurrence of [annotationId]. *)
Theorem removeAnnotation_drops_id annotationId w :
  forallb two_sided (coins (mgr w)) = true ->
  removeAnnotation annotationId w =
    (mkWorld (set_coins (mgr w) (map (remove_from_coin annotationId) (coins (mgr w)))) (ls w), Ok tt) /\
  annotation_ids (set_coins (mgr w) (map (remove_from_coin annotationId) (coins (mgr w)))) =
    filter (fun v => negb (strict_eq v annotationId)) (annotation_ids (mgr w)).
Proof.
  destruct w as [[cs mode nc na q e] l]. simpl. intros H. split.
  - unfold removeAnnotation, forEach_coin, bind, get_mgr. simpl.
    exact (loop_from_map (fun i => forEach_side sides (remove_side annotationId i)) (remove_from_coin annotationId)
             two_sided (fun m l k Hk => remove_sides_step annotationId m l k Hk) cs []
             (mkManager cs mode nc na q e) l H).
  - exact (annotation_ids_remove annotationId (mkManager cs mode nc na q e) cs H).
Qed.

Lemma removeAnnotation_drops_id_witness :
  let c := JObj [("id", JNum 1);
                 ("annotations", JObj [("obverse", JArr [marker 1 10 20 "Mint mark" "#e74c3c"; marker 2 30 40 "Date" "#3498db"]);
                                       ("reverse", JArr [marker 3 50 60 "Eagle" "#2ecc71"])])] in
  let w := mkWorld (set_coins manager0 [c]) [] in
  removeAnnotation (JNum 2) w =
    (mkWorld (set_coins (mgr w) (map (remove_from_coin (JNum 2)) (coins (mgr w)))) (ls w), Ok tt) /\
  annotation_ids (set_coins (mgr w) (map (remove_from_coin (JNum 2)) (coins (mgr w)))) = [JNum 1; JNum 3].
Proof.
  intros c w.
  destruct (removeAnnotation_drops_id (JNum 2) w eq_refl) as [H1 H2].
  split; [exact H1|]. rewrite H2. reflexivity.
Defined.

(** *** Updating annotations *)

Lemma flat_map_replace_nth_same {B} (F : jv -> list B) l i x :
  F x = F (nth i l JUndef) -> flat_map F (replace_nth l i x) = flat_map F l.
Proof.
  revert i; induction l as [|y r IH]; intros [|i] H; simpl in *; auto.
  - rewrite H. reflexivity.
  - rewrite IH; auto.
Qed.

Lemma assoc_get_assign_other k al updates :
  forallb (fun kv => negb (String.eqb (fst kv) k)) updates = true ->
  assoc_get k (assign al updates) = assoc_get k al.
Proof.
  revert al; induction updates as [|[k' v] r IH]; intros al H; simpl in *; [reflexivity|].
  apply andb_prop in H as [Hk H]. rewrite IH by exact H.
  apply assoc_get_set_other. intros ->. rewrite String.eqb_refl in Hk. discriminate Hk.
Qed.

(** Writing to one side of coin [i] a list of markers with the same ids. *)
Lemma ids_step m i coin anns side l l' anns' coin' :
  forallb two_sided (coins m) = true -> nth i (coins m) JUndef = coin ->
  js_get coin "annotations" = Ok anns -> js_get anns side = Ok (JArr l) ->
  map (fun a => prop a "id") l' = map (fun a => prop a "id") l ->
  js_set anns side (JArr l') = Ok anns' -> js_set coin "annotations" anns' = Ok coin' ->
  annotation_ids (set_coins m (replace_nth (coins m) i coin')) = annotation_ids m.
Proof.
  intros Hcs Hnth Ha Hl Hids Hs1 Hs2.
  destruct (forallb_nth two_sided (coins m) i Hcs) as [Hu|Hcoin]; [rewrite <- Hnth, Hu in Ha; simpl in Ha; discriminate Ha|].
  rewrite Hnth in Hcoin.
  destruct (two_sided_inv _ Hcoin) as [cl [o [r [-> [Hann _]]]]].
  simpl in Ha. rewrite Hann in Ha. injection Ha as <-.
  simpl in Hs2. injection Hs2 as <-. simpl in Hs1. injection Hs1 as <-.
  unfold annotation_ids. simpl coins. apply flat_map_replace_nth_same. rewrite Hnth.
  simpl. rewrite assoc_get_set_same, Hann. simpl in Hl |- *.
  change (fun a => match js_get a "id" with Ok v => v | Throw _ => JUndef end) with (fun a => prop a "id").
  destruct (String.eqb side "obverse") eqn:E1; [|destruct (String.eqb side "reverse") eqn:E2];
    try discriminate Hl; injection Hl as ->; simpl.
  - rewrite Hids. reflexivity.
  - rewrite Hids. reflexivity.
Qed.

Section SameIds.
Variable S0 : list jv.
Variable I0 : list jv.
Let Q := fun w => (forallb two_sided (coins (mgr w)) = true /\ map strip_annotations (coins (mgr w)) = S0) /\
                  annotation_ids (mgr w) = I0.

Lemma update_side_keeps_ids annotationId updates i side :
  marker_updates updates = true -> forallb (fun kv => negb (String.eqb (fst kv) "id")) updates = true ->
  keeps Q (update_side annotationId updates i side).
Proof.
  intros Hu Hid w [HP H3]. split; [exact (update_side_keeps S0 annotationId updates i side Hu w HP)|].
  destruct HP as [H1 _].
  unfold update_side, bind, coin_at, get_mgr, ret, lift, set_coin, put_mgr, throw. simpl.
  destruct (js_get (nth i (coins (mgr w)) JUndef) "annotations") as [anns|e] eqn:Ea; simpl; auto.
  destruct (js_get anns side) as [lst|e] eqn:El; simpl; auto.
  destruct lst as [| | | | |l|]; simpl; auto.
  destruct (find_res (id_is annotationId) l 0) as [[[j a]|]|e] eqn:Ef; simpl; auto.
  destruct a as [| | | | | |al]; simpl; auto.
  match goal with |- context [js_set anns side (JArr ?l')] =>
    destruct (js_set anns side (JArr l')) as [anns'|e] eqn:Es1; simpl; auto end.
  destruct (js_set (nth i (coins (mgr w)) JUndef) "annotations" anns') as [coin'|e] eqn:Es2; simpl; auto.
  destruct (find_res_nth _ _ _ _ _ JUndef Ef) as [_ Hn]. rewrite Nat.sub_0_r in Hn.
  rewrite <- H3. refine (ids_step _ _ _ _ _ _ _ _ _ H1 eq_refl Ea El _ Es1 Es2).
  apply (map_replace_nth_same (fun a => prop a "id")). rewrite Hn.
  unfold prop. simpl. rewrite assoc_get_assign_other by exact Hid. reflexivity.
Qed.

Lemma updateAnnotation_keeps_ids annotationId updates :
  marker_updates updates = true -> forallb (fun kv => negb (String.eqb (fst kv) "id")) updates = true ->
  keeps Q (updateAnnotation annotationId updates).
Proof.
  intros Hu Hid. unfold updateAnnotation, forEach_coin.
  apply keeps_bind; [apply keeps_get_mgr|intros m].
  apply keeps_loop_from. intros i. apply keeps_forEach_side. intros side.
  apply update_side_keeps_ids; assumption.
Qed.
End SameIds.

(** X13: [updateAnnotation(annotationId, updates)] with updates of marker keys
    other than id, as its calls [{ label, color }] and [{ x, y }], on coins
    whose annotations hold the two arrays of markers, never adds, removes,
    reorders or renames a marker: the list of annotation ids of the
    collection is the same afterwards. *)
Theorem updateAnnotation_same_ids annotationId updates w :
  marker_updates updates = true -> forallb (fun kv => negb (String.eqb (fst kv) "id")) updates = true ->
  forallb two_sided (coins (mgr w)) = true ->
  annotation_ids (mgr (fst (updateAnnotation annotationId updates w))) = annotation_ids (mgr w).
Proof.
  intros Hu Hid H.
  exact (proj2 (updateAnnotation_keeps_ids (map strip_annotations (coins (mgr w))) (annotation_ids (mgr w))
                  annotationId updates Hu Hid w (conj (conj H eq_refl) eq_refl))).
Qed.

Lemma updateAnnotation_same_ids_witness :
  let c := JObj [("id", JNum 1);
                 ("annotations", JObj [("obverse", JArr [marker 1 10 20 "Mint mark" "#e74c3c"; marker 2 30 40 "Date" "#3498db"]);
                                       ("reverse", JArr [marker 3 50 60 "Eagle" "#2ecc71"])])] in
  let w := mkWorld (set_coins manager0 [c]) [] in
  annotation_ids (mgr (fst (updateAnnotation (JNum 2) [("x", JNum 35); ("y", JNum 45)] w))) = [JNum 1; JNum 2; JNum 3].
Proof.
  intros c w. rewrite (updateAnnotation_same_ids (JNum 2) [("x", JNum 35); ("y", JNum 45)] w eq_refl eq_refl eq_refl).
  reflexivity.
Defined.

(** *** The comparison panel *)

Lemma find_coin_found coinId cs i coin :
  find_coin coinId cs = Ok (Some (i, coin)) -> truthy coin = true /\ id_is coinId coin = Ok true.
Proof.
  unfold find_coin. generalize 0%nat as k. induction cs as [|x r IH]; intros k H; simpl in H; [discriminate|].
  destruct (id_is coinId x) as [b|e] eqn:E; simpl in H; [|discriminate].
  destruct b.
  - simpl in H. destruct (truthy x) eqn:Ht; [|discriminate]. injection H as <- <-. auto.
  - exact (IH (S k) H).
Qed.


(** X15: the same coin added twice to an empty panel fills both slots, and
    [removeFromComparison] of its id then empties only the first: the coin
    stays in the second slot. *)
Theorem comparison_same_coin_twice coinId cs i coin mode :
  find_coin coinId cs = Ok (Some (i, coin)) ->
  rbind (addToComparison coinId cs (mkComparison mode (JNull, JNull))) (addToComparison coinId cs) =
    Ok (mkComparison mode (coin, coin)) /\
  removeFromComparison coinId (mkComparison mode (coin, coin)) = Ok (mkComparison mode (JNull, coin)).
Proof.
  intros H. destruct (find_coin_found _ _ _ _ H) as [Ht Hid].
  split.
  - unfold addToComparison. rewrite H. simpl. rewrite Ht. reflexivity.
  - unfold removeFromComparison. simpl. rewrite Ht.
    unfold id_is in Hid. destruct (js_get coin "id") as [v|e]; simpl in Hid; [|discriminate].
    injection Hid as Hv. simpl. rewrite Hv. reflexivity.
Qed.

Lemma comparison_same_coin_twice_witness :
  let coin := JObj [("id", JNum 4); ("title", JStr "Dime")] in
  rbind (addToComparison (JNum 4) [coin] (mkComparison true (JNull, JNull))) (addToComparison (JNum 4) [coin]) =
    Ok (mkComparison true (coin, coin)) /\
  removeFromComparison (JNum 4) (mkComparison true (coin, coin)) = Ok (mkComparison true (JNull, coin)).
Proof. intros coin. exact (comparison_same_coin_twice (JNum 4) [coin] 0 coin true eq_refl). Defined.

